(** * mega2565: a 6502 memory emulator on an ATmega2560

    Shallow embedding of [src/main.c].  The C program keeps its state in
    globals and in memory-mapped I/O registers; here that state is one
    record threaded through every operation.  Integers are [Z] with the
    C wrap-around written out ([wrap8], [wrap16]); arrays are lists
    indexed with stdpp's lookup and insert; everything the program does
    to the outside world (register writes on the bus side, busy-wait
    delays, bytes pushed into the UART) is appended to an event trace. *)

From Stdlib Require Import ZArith List String Ascii Lia Bool.
From stdpp Require Import base list.
Import ListNotations.

Local Open Scope Z_scope.

(** ** Machine integers *)

Definition wrap8 (x : Z) : Z := x mod 256.
Definition wrap16 (x : Z) : Z := x mod 65536.

Definition is_byte (x : Z) : Prop := 0 <= x < 256.
Definition is_word (x : Z) : Prop := 0 <= x < 65536.

(** [((uint16_t)hi << 8) | lo] stored in a [uint16_t]. *)
Definition word_of_bytes (hi lo : Z) : Z :=
  wrap16 (Z.lor (wrap16 (Z.shiftl hi 8)) lo).

(** [x & (1 << n)] used as a C truth value. *)
Definition bit_set (x n : Z) : bool := negb (Z.land x (Z.shiftl 1 n) =? 0).

(** ** Constants of the source *)

Definition CPU_RESET : Z := 0.
Definition CPU_RW : Z := 1.
Definition CPU_IRQ : Z := 2.
Definition CPU_NMI : Z := 3.
Definition CPU_SYNC : Z := 4.
Definition CPU_CLOCK : Z := 5.

Definition MEMORY_SIZE : Z := 4096.
Definition MAX_BREAKPOINTS : Z := 10.

(** ** Observable effects *)

Inductive event : Type :=
| EvDataDir (v : Z)        (* DATA_DIR = v      (DDRA)  *)
| EvDataBus (v : Z)        (* DATA_BUS = v      (PORTA) *)
| EvControlPort (v : Z)    (* CONTROL_PORT = v  (PORTD) *)
| EvDelayUs (n : Z)        (* _delay_us(n) *)
| EvDelayMs (n : Z)        (* _delay_ms(n) *)
| EvTx (b : Z).            (* UDR0 = b *)

(** ** Program state: the globals, the output registers, the UART *)

Record state : Type := mkState {
  cpu_running : Z;            (* volatile uint8_t cpu_running *)
  memory : list Z;            (* uint8_t memory[MEMORY_SIZE] *)
  breakpoints : list Z;       (* uint16_t breakpoints[MAX_BREAKPOINTS] *)
  breakpoint_count : Z;       (* uint8_t breakpoint_count *)
  DATA_DIR : Z;
  DATA_BUS : Z;
  CONTROL_PORT : Z;
  rx : list Z;                (* bytes the host has sent and UDR0 has not yet delivered *)
  trace : list event
}.

Definition set_cpu_running (v : Z) (st : state) : state :=
  mkState v (memory st) (breakpoints st) (breakpoint_count st)
          (DATA_DIR st) (DATA_BUS st) (CONTROL_PORT st) (rx st) (trace st).

Definition set_memory (m : list Z) (st : state) : state :=
  mkState (cpu_running st) m (breakpoints st) (breakpoint_count st)
          (DATA_DIR st) (DATA_BUS st) (CONTROL_PORT st) (rx st) (trace st).

Definition set_breakpoints (b : list Z) (n : Z) (st : state) : state :=
  mkState (cpu_running st) (memory st) b n
          (DATA_DIR st) (DATA_BUS st) (CONTROL_PORT st) (rx st) (trace st).

Definition set_rx (r : list Z) (st : state) : state :=
  mkState (cpu_running st) (memory st) (breakpoints st) (breakpoint_count st)
          (DATA_DIR st) (DATA_BUS st) (CONTROL_PORT st) r (trace st).

Definition emit (e : event) (st : state) : state :=
  mkState (cpu_running st) (memory st) (breakpoints st) (breakpoint_count st)
          (DATA_DIR st) (DATA_BUS st) (CONTROL_PORT st) (rx st) (trace st ++ [e]).

(** A run of events appended at once; used to state what an operation
    showed to the outside. *)
Definition emits (evs : list event) (st : state) : state :=
  mkState (cpu_running st) (memory st) (breakpoints st) (breakpoint_count st)
          (DATA_DIR st) (DATA_BUS st) (CONTROL_PORT st) (rx st) (trace st ++ evs).

Definition write_DATA_DIR (v : Z) (st : state) : state :=
  emit (EvDataDir v)
    (mkState (cpu_running st) (memory st) (breakpoints st) (breakpoint_count st)
             v (DATA_BUS st) (CONTROL_PORT st) (rx st) (trace st)).

Definition write_DATA_BUS (v : Z) (st : state) : state :=
  emit (EvDataBus v)
    (mkState (cpu_running st) (memory st) (breakpoints st) (breakpoint_count st)
             (DATA_DIR st) v (CONTROL_PORT st) (rx st) (trace st)).

Definition write_CONTROL_PORT (v : Z) (st : state) : state :=
  emit (EvControlPort v)
    (mkState (cpu_running st) (memory st) (breakpoints st) (breakpoint_count st)
             (DATA_DIR st) (DATA_BUS st) v (rx st) (trace st)).

Definition _delay_us (n : Z) (st : state) : state := emit (EvDelayUs n) st.
Definition _delay_ms (n : Z) (st : state) : state := emit (EvDelayMs n) st.

(** What the input pins read during one invocation of the bus responder.
    Each of the four registers is read at most once per invocation, so a
    record of four values covers every interleaving with the CPU. *)
Record pins : Type := mkPins {
  ADDR_BUS_HIGH : Z;   (* PINL *)
  ADDR_BUS_LOW : Z;    (* PINC *)
  CONTROL_PIN : Z;     (* PIND *)
  DATA_PIN : Z         (* PINA *)
}.

(** ** MemoryStore: [write_memory], [read_memory] *)

Definition write_memory (address data : Z) (st : state) : Z * state :=
  if address <? MEMORY_SIZE
  then (1, set_memory (<[Z.to_nat address := data]> (memory st)) st)
  else (0, st).

(** The out-parameter [*data] is returned next to the status. *)
Definition read_memory (address : Z) (st : state) : Z * Z :=
  if address <? MEMORY_SIZE
  then (1, memory st !!! Z.to_nat address)
  else (0, 255).

(** The array [memory] really has [MEMORY_SIZE] cells. *)
Definition memory_ok (st : state) : Prop :=
  length (memory st) = Z.to_nat MEMORY_SIZE.

(** ** Serial output *)

Definition send_byte (data : Z) (st : state) : state := emit (EvTx data) st.

Definition bytes_of_string (s : string) : list Z :=
  map (fun c => Z.of_N (N_of_ascii c)) (list_ascii_of_string s).

Definition hex_digits : list Z := bytes_of_string "0123456789ABCDEF".

Definition send_byte_hex (data : Z) (st : state) : state :=
  let st := send_byte (nth (Z.to_nat (Z.land (Z.shiftr data 4) 15)) hex_digits 0) st in
  send_byte (nth (Z.to_nat (Z.land data 15)) hex_digits 0) st.

Definition send_string (str : string) (st : state) : state :=
  fold_left (fun s b => send_byte b s) (bytes_of_string str) st.

(** ** Run state *)

Definition halt_cpu (st : state) : state := set_cpu_running 0 st.
Definition release_cpu (st : state) : state := set_cpu_running 1 st.

Definition reset_cpu (st : state) : state :=
  let st := write_CONTROL_PORT
              (wrap8 (Z.land (CONTROL_PORT st) (Z.lnot (Z.shiftl 1 CPU_RESET)))) st in
  let st := _delay_ms 10 st in
  let st := write_CONTROL_PORT
              (wrap8 (Z.lor (CONTROL_PORT st) (Z.shiftl 1 CPU_RESET))) st in
  set_cpu_running 1 st.

(** ** BreakpointTable

    The table has no functions of its own in the source: the scan is the
    [for] loop at the head of [simulate_memory], the insertion is the body
    of case ['B'] of [handle_serial_command]. *)

(** [for (i = 0; i < breakpoint_count; i++) if (address == breakpoints[i])]:
    [n] iterations remain, [i] is the loop index.  A cell beyond the array
    never matches. *)
Fixpoint breakpoint_scan (n i : nat) (address : Z) (bps : list Z) : bool :=
  match n with
  | O => false
  | S n' =>
      if bool_decide (bps !! i = Some address) then true
      else breakpoint_scan n' (S i) address bps
  end.

Definition breakpoint_contains (address : Z) (st : state) : bool :=
  breakpoint_scan (Z.to_nat (breakpoint_count st)) 0 address (breakpoints st).

(** [breakpoints[breakpoint_count++] = address] *)
Definition breakpoint_store (address : Z) (st : state) : state :=
  set_breakpoints (<[Z.to_nat (breakpoint_count st) := address]> (breakpoints st))
                  (wrap8 (breakpoint_count st + 1)) st.

Definition breakpoints_ok (st : state) : Prop :=
  length (breakpoints st) = Z.to_nat MAX_BREAKPOINTS.

(** ** Message texts *)

Definition NL : string := String (ascii_of_nat 10) EmptyString.
Definition line (s : string) : string := String.append s NL.

Definition msg_breakpoint_reached : string := "Breakpoint reached at address: 0x".
Definition msg_breakpoint_set : string := "Breakpoint set at address 0x".
Definition msg_breakpoints_full : string :=
  line "Error: Maximum number of breakpoints reached.".
Definition msg_load_error : string := line "Error: Invalid address during load.".
Definition msg_load_ok : string := line "Data loaded successfully.".
Definition msg_invalid_address : string := line "Error: Invalid address.".

(** ** BusResponder: [simulate_memory] *)

Definition bus_address (p : pins) : Z :=
  word_of_bytes (ADDR_BUS_HIGH p) (ADDR_BUS_LOW p).

(** Body of the breakpoint loop on a match, up to its [break]. *)
Definition breakpoint_reached (address : Z) (st : state) : state :=
  let st := halt_cpu st in
  let st := send_string msg_breakpoint_reached st in
  let st := send_byte_hex (wrap8 (Z.shiftr address 8)) st in
  let st := send_byte_hex (wrap8 (Z.land address 255)) st in
  send_string NL st.

(** The data transaction, the second half of [simulate_memory]. *)
Definition bus_transaction (p : pins) (address : Z) (st : state) : state :=
  if bit_set (CONTROL_PIN p) CPU_RW then
    let '(ok, data) := read_memory address st in
    if negb (ok =? 0) then
      let st := write_DATA_DIR 255 st in
      let st := write_DATA_BUS data st in
      let st := _delay_us 1 st in
      write_DATA_DIR 0 st
    else
      let st := write_DATA_DIR 255 st in
      let st := write_DATA_BUS 255 st in
      let st := _delay_us 1 st in
      write_DATA_DIR 0 st
  else
    let st := write_DATA_DIR 0 st in
    let data := DATA_PIN p in
    snd (write_memory address data st).

Definition simulate_memory (p : pins) (st : state) : state :=
  let address := bus_address p in
  let st := if breakpoint_contains address st
            then breakpoint_reached address st else st in
  bus_transaction p address st.

(** ** StepController: [step_cpu] *)

(** What the environment presents during one pass of the stepping loop:
    the pins seen by [simulate_memory], then [CONTROL_PIN] as read by the
    SYNC test. *)
Record cycle : Type := mkCycle {
  cyc_pins : pins;
  cyc_sync_pin : Z
}.

Definition sync_of (c : cycle) : bool := bit_set (cyc_sync_pin c) CPU_SYNC.

Definition clock_pulse (st : state) : state :=
  let st := write_CONTROL_PORT
              (wrap8 (Z.lor (CONTROL_PORT st) (Z.shiftl 1 CPU_CLOCK))) st in
  let st := _delay_us 1 st in
  let st := write_CONTROL_PORT
              (wrap8 (Z.land (CONTROL_PORT st) (Z.lnot (Z.shiftl 1 CPU_CLOCK)))) st in
  _delay_us 1 st.

(** One pass of the loop body up to the SYNC test. *)
Definition bus_cycle (c : cycle) (st : state) : state :=
  simulate_memory (cyc_pins c) (clock_pulse st).

(** Results of code that may wait for ever. *)
Inductive outcome (A : Type) : Type :=
| Ret (a : A)
| RxStarved          (* spinning in receive_byte: the host sends nothing more *)
| StillStepping.     (* the do-while of step_cpu has not left within the fuel *)
Arguments Ret {A} a.
Arguments RxStarved {A}.
Arguments StillStepping {A}.

(** The [do ... while (1)] of [step_cpu]; [env k] is what the pins show
    during pass [k]. *)
Fixpoint step_loop (fuel : nat) (env : nat -> cycle) (k : nat)
         (sync_high : Z) (st : state) : outcome state :=
  match fuel with
  | O => StillStepping
  | S fuel' =>
      let st := bus_cycle (env k) st in
      if sync_of (env k) then
        step_loop fuel' env (S k) (if sync_high =? 0 then 1 else sync_high) st
      else if negb (sync_high =? 0) then Ret st
      else step_loop fuel' env (S k) sync_high st
  end.

Definition step_cpu (fuel : nat) (env : nat -> cycle) (st : state) : outcome state :=
  step_loop fuel env 0 0 (halt_cpu st).

(** [n] bus cycles in a row, starting at pass [k]. *)
Fixpoint run_cycles (env : nat -> cycle) (k n : nat) (st : state) : state :=
  match n with
  | O => st
  | S n' => run_cycles env (S k) n' (bus_cycle (env k) st)
  end.

(** ** CommandDispatcher: [receive_byte], [handle_serial_command] *)

Definition receive_byte (st : state) : outcome (Z * state) :=
  match rx st with
  | [] => RxStarved
  | b :: r => Ret (b, set_rx r st)
  end.

Definition bind {A B : Type} (m : outcome (A * state))
           (f : A -> state -> outcome B) : outcome B :=
  match m with
  | Ret (a, s) => f a s
  | RxStarved => RxStarved
  | StillStepping => StillStepping
  end.

Notation "'let*' ( x , s ) := m 'in' k" :=
  (bind m (fun x s => k))
  (at level 10, x name, s name, m at level 100, k at level 200).

(** [((uint16_t)receive_byte() << 8) | receive_byte()], the left call
    first: the byte that arrives first is the high byte. *)
Definition receive_word (st : state) : outcome (Z * state) :=
  let* (hi, st) := receive_byte st in
  let* (lo, st) := receive_byte st in
  Ret (word_of_bytes hi lo, st).

Definition ch (c : ascii) : Z := Z.of_N (N_of_ascii c).

(** The [for] loop of case ['L']: [n] iterations remain, [i] is the loop
    index; the result carries the value of [i] on leaving the loop. *)
Fixpoint load_loop (n : nat) (address i : Z) (st : state) : outcome (Z * state) :=
  match n with
  | O => Ret (i, st)
  | S n' =>
      let* (data, st) := receive_byte st in
      let '(ok, st) := write_memory (wrap16 (address + i)) data st in
      if ok =? 0 then Ret (i, send_string msg_load_error st)
      else load_loop n' address (wrap16 (i + 1)) st
  end.

Definition send_address (address : Z) (st : state) : state :=
  send_byte_hex (wrap8 (Z.land address 255))
    (send_byte_hex (wrap8 (Z.shiftr address 8)) st).

Definition handle_serial_command (fuel : nat) (env : nat -> cycle)
           (st : state) : outcome state :=
  let* (command, st) := receive_byte st in
  if command =? ch "R" then
    Ret (send_string (line "CPU reset.") (reset_cpu st))
  else if command =? ch "H" then
    Ret (send_string (line "CPU halted.") (halt_cpu st))
  else if command =? ch "C" then
    Ret (send_string (line "CPU continued.") (release_cpu st))
  else if command =? ch "S" then
    match step_cpu fuel env st with
    | Ret st => Ret (send_string (line "CPU stepped one instruction.") st)
    | RxStarved => RxStarved
    | StillStepping => StillStepping
    end
  else if command =? ch "W" then
    let* (address, st) := receive_word st in
    let* (data, st) := receive_byte st in
    let '(ok, st) := write_memory address data st in
    if negb (ok =? 0) then
      Ret (send_string (line ".")
             (send_address address (send_string "Memory written at address 0x" st)))
    else Ret (send_string msg_invalid_address st)
  else if command =? ch "M" then
    let* (address, st) := receive_word st in
    let '(ok, data) := read_memory address st in
    if negb (ok =? 0) then Ret (send_byte data st)
    else Ret (send_string msg_invalid_address st)
  else if command =? ch "L" then
    let* (address, st) := receive_word st in
    let* (size, st) := receive_word st in
    let* (i, st) := load_loop (Z.to_nat size) address 0 st in
    if i =? size then Ret (send_string msg_load_ok st) else Ret st
  else if command =? ch "B" then
    if breakpoint_count st >=? MAX_BREAKPOINTS then
      Ret (send_string msg_breakpoints_full st)
    else
      let* (address, st) := receive_word st in
      let st := breakpoint_store address st in
      Ret (send_string (line ".")
             (send_address address (send_string msg_breakpoint_set st)))
  else if command =? ch "G" then
    Ret (send_string (line "Error: Register reading not supported.") st)
  else
    Ret (send_string (line "Error: Unknown command.") st).

(** ** [calculate_checksum] *)

(** [for (i = 0; i < length; i++) checksum ^= data[i]]; reading past the
    end of the buffer has no defined result. *)
Fixpoint checksum_loop (n i : nat) (data : list Z) (checksum : Z) : option Z :=
  match n with
  | O => Some checksum
  | S n' =>
      match data !! i with
      | Some d => checksum_loop n' (S i) data (wrap8 (Z.lxor checksum d))
      | None => None
      end
  end.

Definition calculate_checksum (data : list Z) (length : Z) : option Z :=
  checksum_loop (Z.to_nat length) 0 data 0.

(** The XOR of all bytes of a buffer. *)
Definition xor_all (l : list Z) : Z := fold_right Z.lxor 0 l.

(** ** Vocabulary of the statements *)

(** The bytes of a message as UART events. *)
Definition tx_string (s : string) : list event := map EvTx (bytes_of_string s).

(** The two digits [send_byte_hex] sends for a byte. *)
Definition hex_hi (data : Z) : Z := nth (Z.to_nat (Z.land (Z.shiftr data 4) 15)) hex_digits 0.
Definition hex_lo (data : Z) : Z := nth (Z.to_nat (Z.land data 15)) hex_digits 0.

(** The four hexadecimal digits sent for a 16-bit address. *)
Definition tx_address (address : Z) : list event :=
  [EvTx (hex_hi (wrap8 (Z.shiftr address 8))); EvTx (hex_lo (wrap8 (Z.shiftr address 8)));
   EvTx (hex_hi (wrap8 (Z.land address 255))); EvTx (hex_lo (wrap8 (Z.land address 255)))].

(** The state after power-up: globals zeroed, [cpu_running = 1], nothing
    received, nothing emitted. *)
Definition blank_state : state :=
  mkState 1 (replicate (Z.to_nat MEMORY_SIZE) 0)
            (replicate (Z.to_nat MAX_BREAKPOINTS) 0) 0 0 0 0 [] [].

(** The dispatcher called [n] times in a row, with no bus cycle served in
    between (the main loop with the CPU halted and command bytes waiting). *)
Fixpoint run_commands (n fuel : nat) (env : nat -> cycle) (st : state) : outcome state :=
  match n with
  | O => Ret st
  | S n' =>
      match handle_serial_command fuel env st with
      | Ret st' => run_commands n' fuel env st'
      | RxStarved => RxStarved
      | StillStepping => StillStepping
      end
  end.

(** The bytes of a SetBreakpoint command and the text of its success reply. *)
Definition cmd_B (a : Z * Z) : list Z := [ch "B"; fst a; snd a].
Definition addr_B (a : Z * Z) : Z := word_of_bytes (fst a) (snd a).
Definition tx_breakpoint_set (address : Z) : list event :=
  tx_string msg_breakpoint_set ++ tx_address address ++ tx_string (line ".").

(** Sample inputs: ten distinct breakpoint addresses 0x0100 .. 0x0109, an
    eleventh one, and a state whose table is full. *)
Definition ten_addrs : list (Z * Z) :=
  [(1, 0); (1, 1); (1, 2); (1, 3); (1, 4); (1, 5); (1, 6); (1, 7); (1, 8); (1, 9)].
Definition idle_env : nat -> cycle := fun _ => mkCycle (mkPins 0 0 0 0) 0.
Definition full_table_state (r : list Z) : state :=
  mkState 1 (replicate (Z.to_nat MEMORY_SIZE) 0)
            (map addr_B ten_addrs) MAX_BREAKPOINTS 0 0 0 r [].

(** [memory] after the bytes [data] were stored one by one from cell [a]
    upwards, as the Load loop does while the addresses are valid. *)
Fixpoint store_bytes (a : nat) (data : list Z) (m : list Z) : list Z :=
  match data with
  | [] => m
  | d :: ds => store_bytes (S a) ds (<[a := d]> m)
  end.

(** The breakpoint notification as UART events. *)
Definition tx_breakpoint_reached (address : Z) : list event :=
  tx_string msg_breakpoint_reached ++ tx_address address ++ tx_string NL.

(** Value of an upper-case hexadecimal digit, and the 16-bit number spelt
    by four of them. *)
Definition hex_value (c : Z) : Z := if c <? 65 then c - 48 else c - 55.
Definition address_of_digits (evs : list event) : option Z :=
  match evs with
  | [EvTx d3; EvTx d2; EvTx d1; EvTx d0] =>
      Some (4096 * hex_value d3 + 256 * hex_value d2 + 16 * hex_value d1 + hex_value d0)
  | _ => None
  end.

(** An event that makes this system drive the data lines: the direction
    register set to output, or a value placed in the output register. *)
Definition drives_data (e : event) : bool :=
  match e with
  | EvDataDir v => negb (v =? 0)
  | EvDataBus _ => true
  | _ => false
  end.

(** The responder, called with pins [p] in state [st], emits no event that
    drives the data lines. *)
Definition no_data_asserted (p : pins) (st : state) : Prop :=
  forall evs, trace (simulate_memory p st) = trace st ++ evs ->
              existsb drives_data evs = false.

(** Events of the data transaction of one bus cycle. *)
Definition transaction_events (p : pins) (address : Z) (st : state) : list event :=
  if bit_set (CONTROL_PIN p) CPU_RW
  then [EvDataDir 255; EvDataBus (snd (read_memory address st)); EvDelayUs 1; EvDataDir 0]
  else [EvDataDir 0].

(** Sample input: a breakpoint at 0x0100, the byte 0x42 stored there, and
    the CPU reading that address. *)
Definition hit_state : state :=
  mkState 1 (<[256%nat := 66]> (replicate (Z.to_nat MEMORY_SIZE) 0))
            (<[0%nat := 256]> (replicate (Z.to_nat MAX_BREAKPOINTS) 0)) 1 0 0 0 [] [].
Definition read_pins (hi lo : Z) : pins := mkPins hi lo (Z.shiftl 1 CPU_RW) 0.
Definition write_pins (hi lo data : Z) : pins := mkPins hi lo 0 data.

(** The SYNC line as the stepping loop samples it in pass [k]. *)
Definition sync_at (env : nat -> cycle) (k : nat) : bool := sync_of (env k).

(** Sample SYNC histories for the stepping loop: low, high, high, low, ...
    (one opcode fetch), and SYNC stuck high. *)
Definition sync_pins (high : bool) : cycle :=
  mkCycle (read_pins 0 0) (if high then Z.shiftl 1 CPU_SYNC else 0).
Definition one_fetch_env : nat -> cycle :=
  fun k => sync_pins (Nat.eqb k 1 || Nat.eqb k 2).
Definition stuck_high_env : nat -> cycle := fun _ => sync_pins true.

(** ** Start-up: [init_cpu_interface], [init_serial] *)

(** [CONTROL_DIR] (DDRD) is written here only; its value is passed in and
    returned next to the state. *)
Definition init_cpu_interface (control_dir : Z) (st : state) : Z * state :=
  let control_dir :=
    wrap8 (Z.lor control_dir
             (Z.lor (Z.lor (Z.lor (Z.shiftl 1 CPU_RESET) (Z.shiftl 1 CPU_IRQ))
                           (Z.shiftl 1 CPU_NMI)) (Z.shiftl 1 CPU_CLOCK))) in
  let control_dir :=
    wrap8 (Z.land control_dir
             (Z.lnot (Z.lor (Z.shiftl 1 CPU_RW) (Z.shiftl 1 CPU_SYNC)))) in
  let st := write_DATA_DIR 0 st in
  let st := write_CONTROL_PORT (wrap8 (Z.lor (CONTROL_PORT st) (Z.shiftl 1 CPU_RESET))) st in
  let st := write_CONTROL_PORT (wrap8 (Z.lor (CONTROL_PORT st) (Z.shiftl 1 CPU_IRQ))) st in
  let st := write_CONTROL_PORT (wrap8 (Z.lor (CONTROL_PORT st) (Z.shiftl 1 CPU_NMI))) st in
  let st := write_CONTROL_PORT
              (wrap8 (Z.land (CONTROL_PORT st) (Z.lnot (Z.shiftl 1 CPU_CLOCK)))) st in
  (control_dir, st).

Definition wrap32 (x : Z) : Z := x mod 4294967296.

(** The four UART registers [init_serial] loads. *)
Record uart_config : Type := mkUart {
  UBRR0H : Z;
  UBRR0L : Z;
  UCSR0B : Z;
  UCSR0C : Z
}.

(** [(F_CPU / (16UL * baud_rate)) - 1] in [unsigned long], stored in a
    [uint16_t]; a zero divisor has no defined result. *)
Definition ubrr_of (F_CPU baud_rate : Z) : option Z :=
  let divisor := wrap32 (16 * baud_rate) in
  if divisor =? 0 then None
  else Some (wrap16 (wrap32 (F_CPU / divisor - 1))).

(** The clock frequency [F_CPU] and the bit numbers [RXEN0], [TXEN0],
    [UCSZ01], [UCSZ00] come from the build and from avr/io.h; they are
    arguments here. *)
Definition init_serial (F_CPU RXEN0 TXEN0 UCSZ01 UCSZ00 : Z) (baud_rate : Z)
  : option uart_config :=
  match ubrr_of F_CPU baud_rate with
  | None => None
  | Some ubrr_value =>
      Some (mkUart (wrap8 (Z.shiftr ubrr_value 8))
                   (wrap8 (Z.land ubrr_value 255))
                   (wrap8 (Z.lor (Z.shiftl 1 RXEN0) (Z.shiftl 1 TXEN0)))
                   (wrap8 (Z.lor (Z.shiftl 1 UCSZ01) (Z.shiftl 1 UCSZ00))))
  end.

(** ** Main loop: the body of [while (1)] in [main] *)

(** One pass: a command if a byte is waiting in the receiver, then one bus
    cycle if the CPU is running.  [env] is what the pins show to a Step
    command handled in this pass, [p] what they show to the bus cycle. *)
Definition main_pass (fuel : nat) (env : nat -> cycle) (p : pins)
           (st : state) : outcome state :=
  match (match rx st with
         | [] => Ret st
         | _ :: _ => handle_serial_command fuel env st
         end) with
  | Ret st => Ret (if negb (cpu_running st =? 0) then simulate_memory p st else st)
  | RxStarved => RxStarved
  | StillStepping => StillStepping
  end.

(** Passes in a row, one input per pass. *)
Fixpoint main_loop (fuel : nat) (inputs : list ((nat -> cycle) * pins))
         (st : state) : outcome state :=
  match inputs with
  | [] => Ret st
  | (env, p) :: rest =>
      match main_pass fuel env p st with
      | Ret st' => main_loop fuel rest st'
      | RxStarved => RxStarved
      | StillStepping => StillStepping
      end
  end.

(** The invariant of the globals and of the data-direction register: both
    arrays have their declared sizes, the breakpoint count stays inside its
    array, and the data lines are released. *)
Definition state_ok (st : state) : Prop :=
  memory_ok st /\ breakpoints_ok st /\
  0 <= breakpoint_count st <= MAX_BREAKPOINTS /\
  DATA_DIR st = 0.

(** The bytes of Write and Read commands for a 16-bit address. *)
Definition cmd_W (address data : Z) : list Z :=
  [ch "W"; address / 256; address mod 256; data].
Definition cmd_M (address : Z) : list Z :=
  [ch "M"; address / 256; address mod 256].
Definition tx_memory_written (address : Z) : list event :=
  tx_string "Memory written at address 0x" ++ tx_address address ++ tx_string (line ".").

(** The command bytes the dispatcher has a case for. *)
Definition known_command (c : Z) : bool :=
  existsb (Z.eqb c) [ch "R"; ch "H"; ch "C"; ch "S"; ch "W"; ch "M"; ch "L"; ch "B"; ch "G"].

(** [st'] has the same breakpoint table as [st], a memory array of the
    same size, and a data-direction register that is unchanged or 0. *)
Definition tables_kept (st st' : state) : Prop :=
  length (memory st') = length (memory st) /\
  breakpoints st' = breakpoints st /\
  breakpoint_count st' = breakpoint_count st /\
  (DATA_DIR st' = DATA_DIR st \/ DATA_DIR st' = 0).

(** The main loop with command bytes arriving over time: the bytes of
    [arrived] reach the receiver before the pass looks at it. *)
Fixpoint main_loop_arriving (fuel : nat)
         (inputs : list (list Z * ((nat -> cycle) * pins)))
         (st : state) : outcome state :=
  match inputs with
  | [] => Ret st
  | (arrived, (env, p)) :: rest =>
      match main_pass fuel env p (set_rx (rx st ++ arrived) st) with
      | Ret st' => main_loop_arriving fuel rest st'
      | RxStarved => RxStarved
      | StillStepping => StillStepping
      end
  end.



(** * Properties *)

(** ** Traces *)

Lemma emits_nil st : emits [] st = st.
Proof. destruct st; unfold emits; simpl. by rewrite app_nil_r. Qed.

Lemma emit_emits e st : emit e st = emits [e] st.
Proof. reflexivity. Qed.

Lemma emits_emits l1 l2 st : emits l2 (emits l1 st) = emits (l1 ++ l2) st.
Proof. unfold emits; simpl. by rewrite app_assoc. Qed.

Lemma send_bytes_emits (l : list Z) st :
  fold_left (fun s b => send_byte b s) l st = emits (map EvTx l) st.
Proof.
  revert st. induction l as [|b l IH]; intros st; simpl.
  - symmetry. apply emits_nil.
  - rewrite IH. unfold send_byte. rewrite emit_emits, emits_emits. reflexivity.
Qed.

Lemma send_string_emits s st : send_string s st = emits (tx_string s) st.
Proof. apply send_bytes_emits. Qed.

Lemma send_byte_hex_emits data st :
  send_byte_hex data st = emits [EvTx (hex_hi data); EvTx (hex_lo data)] st.
Proof.
  unfold send_byte_hex, send_byte. rewrite !emit_emits, emits_emits. reflexivity.
Qed.

Lemma send_address_emits address st :
  send_address address st = emits (tx_address address) st.
Proof.
  unfold send_address. rewrite !send_byte_hex_emits, emits_emits. reflexivity.
Qed.

(** ** MemoryStore *)

Section MemoryStore.

Variable st : state.

Lemma write_memory_in_range a b :
  a < MEMORY_SIZE ->
  write_memory a b st = (1, set_memory (<[Z.to_nat a := b]> (memory st)) st).
Proof.
  intros Ha. unfold write_memory.
  destruct (Z.ltb_spec a MEMORY_SIZE); [reflexivity | lia].
Qed.

Lemma write_memory_out_of_range a b :
  MEMORY_SIZE <= a -> write_memory a b st = (0, st).
Proof.
  intros Ha. unfold write_memory.
  destruct (Z.ltb_spec a MEMORY_SIZE); [lia | reflexivity].
Qed.

Lemma read_memory_in_range a :
  a < MEMORY_SIZE -> read_memory a st = (1, memory st !!! Z.to_nat a).
Proof.
  intros Ha. unfold read_memory.
  destruct (Z.ltb_spec a MEMORY_SIZE); [reflexivity | lia].
Qed.

Lemma read_memory_out_of_range a :
  MEMORY_SIZE <= a -> read_memory a st = (0, 255).
Proof.
  intros Ha. unfold read_memory.
  destruct (Z.ltb_spec a MEMORY_SIZE); [lia | reflexivity].
Qed.

End MemoryStore.

Lemma write_memory_memory_ok a b st :
  memory_ok st -> memory_ok (snd (write_memory a b st)).
Proof.
  unfold memory_ok, write_memory. intros H.
  destruct (a <? MEMORY_SIZE); simpl; [|exact H].
  by rewrite length_insert.
Qed.

(** C2.  For every address [a < MEMORY_SIZE] and every byte [b],
    [write_memory(a, b)] succeeds and a following [read_memory(a)]
    succeeds and delivers [b]. *)
Theorem write_then_read (st : state) (a b : Z) :
  memory_ok st ->
  0 <= a < MEMORY_SIZE ->
  fst (write_memory a b st) = 1 /\
  read_memory a (snd (write_memory a b st)) = (1, b).
Proof.
  intros Hok [Ha0 Ha].
  rewrite write_memory_in_range by exact Ha. simpl. split; [reflexivity|].
  rewrite read_memory_in_range by exact Ha. simpl. f_equal.
  apply list_lookup_total_insert_eq.
  unfold memory_ok in Hok. rewrite Hok. lia.
Qed.

Lemma blank_state_memory_ok : memory_ok blank_state.
Proof. unfold memory_ok, blank_state; cbn [memory]. apply length_replicate. Qed.

Lemma write_then_read_witness :
  fst (write_memory 16 66 blank_state) = 1 /\
  read_memory 16 (snd (write_memory 16 66 blank_state)) = (1, 66).
Proof.
  apply (write_then_read blank_state 16 66).
  - vm_compute; reflexivity.
  - unfold MEMORY_SIZE; lia.
Defined.

(** C3.  For every address [a >= MEMORY_SIZE] and every byte [b],
    [write_memory(a, b)] returns 0 and changes nothing, and
    [read_memory(a)] returns 0 with the byte 0xFF. *)
Theorem out_of_range_access (st : state) (a b : Z) :
  MEMORY_SIZE <= a ->
  write_memory a b st = (0, st) /\ read_memory a st = (0, 255).
Proof.
  intros Ha. split.
  - by apply write_memory_out_of_range.
  - by apply read_memory_out_of_range.
Qed.

Lemma out_of_range_access_witness :
  write_memory 8192 7 blank_state = (0, blank_state) /\
  read_memory 8192 blank_state = (0, 255).
Proof. apply (out_of_range_access blank_state 8192 7). unfold MEMORY_SIZE; lia. Defined.

(** ** Checksum *)

Lemma lxor_byte a b : is_byte a -> is_byte b -> is_byte (Z.lxor a b).
Proof.
  unfold is_byte. intros [Ha0 Ha] [Hb0 Hb].
  assert (H0 : 0 <= Z.lxor a b) by (apply Z.lxor_nonneg; lia).
  split; [exact H0|].
  destruct (Z.eq_dec (Z.lxor a b) 0) as [->|Hne]; [lia|].
  change 256 with (2 ^ 8). apply Z.log2_lt_pow2; [lia|].
  assert (Hla : Z.log2 a < 8).
  { destruct (Z.eq_dec a 0) as [->|]; [simpl; lia|].
    apply Z.log2_lt_pow2; [lia | exact Ha]. }
  assert (Hlb : Z.log2 b < 8).
  { destruct (Z.eq_dec b 0) as [->|]; [simpl; lia|].
    apply Z.log2_lt_pow2; [lia | exact Hb]. }
  pose proof (Z.log2_lxor a b Ha0 Hb0). lia.
Qed.

Lemma wrap8_byte x : is_byte x -> wrap8 x = x.
Proof. unfold is_byte, wrap8. intros H. apply Z.mod_small. exact H. Qed.

Lemma xor_all_byte l : Forall is_byte l -> is_byte (xor_all l).
Proof.
  induction 1 as [|x l Hx Hl IH]; simpl.
  - unfold is_byte; lia.
  - by apply lxor_byte.
Qed.

Lemma checksum_loop_spec (data : list Z) :
  Forall is_byte data ->
  forall (n i : nat) (c : Z),
    is_byte c ->
    (i + n <= length data)%nat ->
    checksum_loop n i data c = Some (Z.lxor c (xor_all (take n (drop i data)))).
Proof.
  intros Hdata. induction n as [|n IH]; intros i c Hc Hlen.
  - simpl. by rewrite Z.lxor_0_r.
  - assert (Hi : (i < length data)%nat) by lia.
    destruct (lookup_lt_is_Some_2 data i Hi) as [d Hd].
    assert (Hbd : is_byte d).
    { eapply Forall_lookup_1; eauto. }
    cbn [checksum_loop]. rewrite Hd.
    rewrite wrap8_byte by (by apply lxor_byte).
    rewrite IH; [| by apply lxor_byte | lia].
    rewrite (drop_S data d i Hd). cbn [take xor_all fold_right].
    by rewrite Z.lxor_assoc.
Qed.

(** C9.  [calculate_checksum] returns the XOR of the [length] bytes of the
    buffer, 0 for an empty buffer; it is a function of the buffer and the
    length alone (no program state is an argument of it). *)
Theorem calculate_checksum_xor (data : list Z) (len : Z) :
  Forall is_byte data ->
  len <= Z.of_nat (length data) ->
  calculate_checksum data len = Some (xor_all (take (Z.to_nat len) data)) /\
  calculate_checksum data 0 = Some 0 /\
  calculate_checksum data (Z.of_nat (length data)) = Some (xor_all data).
Proof.
  intros Hdata Hlen.
  assert (Hz : is_byte 0) by (unfold is_byte; lia).
  split; [|split].
  - unfold calculate_checksum.
    rewrite (checksum_loop_spec data Hdata _ 0%nat 0 Hz) by lia.
    by rewrite drop_0, Z.lxor_0_l.
  - reflexivity.
  - unfold calculate_checksum.
    rewrite (checksum_loop_spec data Hdata _ 0%nat 0 Hz) by lia.
    by rewrite drop_0, Z.lxor_0_l, Nat2Z.id, firstn_all.
Qed.

Lemma calculate_checksum_xor_witness :
  calculate_checksum [18; 52; 86; 255] 3 = Some (xor_all (take (Z.to_nat 3) [18; 52; 86; 255])) /\
  calculate_checksum [18; 52; 86; 255] 0 = Some 0 /\
  calculate_checksum [18; 52; 86; 255] (Z.of_nat (length [18; 52; 86; 255]))
    = Some (xor_all [18; 52; 86; 255]).
Proof.
  apply (calculate_checksum_xor [18; 52; 86; 255] 3).
  - repeat constructor; unfold is_byte; lia.
  - simpl; lia.
Defined.

(** ** BreakpointTable *)

Lemma breakpoint_scan_spec (a : Z) (bps : list Z) (n i : nat) :
  breakpoint_scan n i a bps = true <->
  exists k : nat, (i <= k < i + n)%nat /\ bps !! k = Some a.
Proof.
  revert i. induction n as [|n IH]; intros i; cbn [breakpoint_scan].
  - split; [discriminate | intros (k & Hk & _); lia].
  - case_bool_decide as Hi.
    + split; [intros _ | reflexivity]. exists i. split; [lia | exact Hi].
    + rewrite IH. split.
      * intros (k & Hk & Hak). exists k. split; [lia | exact Hak].
      * intros (k & Hk & Hak). exists k. split; [|exact Hak].
        destruct (Nat.eq_dec k i) as [->|]; [contradiction | lia].
Qed.

Lemma breakpoint_contains_spec (a : Z) (st : state) :
  breakpoint_contains a st = true <->
  exists k : nat, (k < Z.to_nat (breakpoint_count st))%nat /\ breakpoints st !! k = Some a.
Proof.
  unfold breakpoint_contains. rewrite breakpoint_scan_spec.
  split; intros (k & Hk & Hak); exists k; (split; [lia | exact Hak]).
Qed.

Lemma breakpoint_contains_store (a w : Z) (st : state) :
  0 <= breakpoint_count st < 255 ->
  (Z.to_nat (breakpoint_count st) < length (breakpoints st))%nat ->
  breakpoint_contains a (breakpoint_store w st) = true <->
  breakpoint_contains a st = true \/ a = w.
Proof.
  intros Hc Hlen. rewrite !breakpoint_contains_spec.
  unfold breakpoint_store; cbn [breakpoint_count breakpoints set_breakpoints].
  rewrite wrap8_byte by (unfold is_byte; lia).
  replace (Z.to_nat (breakpoint_count st + 1)) with (S (Z.to_nat (breakpoint_count st))) by lia.
  set (c := Z.to_nat (breakpoint_count st)) in *.
  split.
  - intros (k & Hk & Hak).
    destruct (Nat.eq_dec k c) as [->|Hne].
    + right. rewrite list_lookup_insert_eq in Hak by exact Hlen. congruence.
    + left. exists k. rewrite list_lookup_insert_ne in Hak by congruence.
      split; [lia | exact Hak].
  - intros [(k & Hk & Hak) | ->].
    + exists k. split; [lia|]. rewrite list_lookup_insert_ne by lia. exact Hak.
    + exists c. split; [lia|]. by apply list_lookup_insert_eq.
Qed.

(** ** CommandDispatcher *)

(** Settle the comparisons of a known command byte against the case labels. *)
Ltac pick_case :=
  repeat match goal with
         | |- context [ch ?a =? ch ?b] =>
             let v := eval vm_compute in (ch a =? ch b) in
             change (ch a =? ch b) with v
         end;
  cbv iota.

Lemma receive_byte_cons b r st :
  rx st = b :: r -> receive_byte st = Ret (b, set_rx r st).
Proof. intros H. unfold receive_byte. by rewrite H. Qed.

Lemma receive_word_cons hi lo r st :
  rx st = hi :: lo :: r -> receive_word st = Ret (word_of_bytes hi lo, set_rx r st).
Proof.
  intros H. unfold receive_word.
  rewrite (receive_byte_cons hi (lo :: r)) by exact H. cbn [bind].
  rewrite (receive_byte_cons lo r) by reflexivity. reflexivity.
Qed.

Lemma handle_B_full fuel env st r :
  rx st = ch "B" :: r ->
  MAX_BREAKPOINTS <= breakpoint_count st ->
  handle_serial_command fuel env st
  = Ret (emits (tx_string msg_breakpoints_full) (set_rx r st)).
Proof.
  intros Hrx Hfull. unfold handle_serial_command.
  rewrite (receive_byte_cons _ _ _ Hrx). cbn [bind]. pick_case.
  cbn [breakpoint_count set_rx].
  destruct (Z.geb_spec (breakpoint_count st) MAX_BREAKPOINTS); [|lia].
  by rewrite send_string_emits.
Qed.

Lemma handle_B_ok fuel env st hi lo r :
  rx st = ch "B" :: hi :: lo :: r ->
  breakpoint_count st < MAX_BREAKPOINTS ->
  handle_serial_command fuel env st
  = Ret (emits (tx_breakpoint_set (word_of_bytes hi lo))
           (breakpoint_store (word_of_bytes hi lo) (set_rx r st))).
Proof.
  intros Hrx Hroom. unfold handle_serial_command.
  rewrite (receive_byte_cons _ _ _ Hrx). cbn [bind]. pick_case.
  cbn [breakpoint_count set_rx].
  destruct (Z.geb_spec (breakpoint_count st) MAX_BREAKPOINTS); [lia|].
  rewrite (receive_word_cons hi lo r) by reflexivity. cbn [bind].
  rewrite !send_string_emits, send_address_emits, !emits_emits.
  reflexivity.
Qed.

Lemma run_commands_app n m fuel env st :
  run_commands (n + m) fuel env st
  = match run_commands n fuel env st with
    | Ret st' => run_commands m fuel env st'
    | RxStarved => RxStarved
    | StillStepping => StillStepping
    end.
Proof.
  revert st. induction n as [|n IH]; intros st; cbn [run_commands Nat.add].
  - reflexivity.
  - destruct (handle_serial_command fuel env st); auto.
Qed.

(** Any number of SetBreakpoint commands that fit in the table. *)
Lemma run_set_breakpoints fuel env (addrs : list (Z * Z)) :
  forall (st : state) (tail : list Z),
    breakpoints_ok st ->
    0 <= breakpoint_count st ->
    breakpoint_count st + Z.of_nat (length addrs) <= MAX_BREAKPOINTS ->
    rx st = flat_map cmd_B addrs ++ tail ->
    exists st',
      run_commands (length addrs) fuel env st = Ret st' /\
      rx st' = tail /\
      breakpoint_count st' = breakpoint_count st + Z.of_nat (length addrs) /\
      breakpoints_ok st' /\
      memory st' = memory st /\
      cpu_running st' = cpu_running st /\
      trace st' = trace st ++ flat_map (fun a => tx_breakpoint_set (addr_B a)) addrs /\
      (forall a, breakpoint_contains a st' = true <->
                 breakpoint_contains a st = true \/ In a (map addr_B addrs)).
Proof.
  induction addrs as [|[hi lo] addrs IH]; intros st tail Hok Hc0 Hroom Hrx.
  - exists st. cbn in Hrx |- *. rewrite app_nil_r.
    repeat split; auto; try lia; tauto.
  - cbn [length flat_map cmd_B fst snd app] in Hrx, Hroom |- *.
    cbn [run_commands].
    rewrite (handle_B_ok fuel env st hi lo _ Hrx) by lia.
    set (w := word_of_bytes hi lo).
    set (st1 := emits (tx_breakpoint_set w) (breakpoint_store w (set_rx _ st))).
    assert (Hc1 : breakpoint_count st1 = breakpoint_count st + 1).
    { subst st1. cbn [emits breakpoint_store set_breakpoints set_rx breakpoint_count].
      apply wrap8_byte. unfold is_byte, MAX_BREAKPOINTS in *. lia. }
    destruct (IH st1 tail) as (st' & Hrun & Hrx' & Hc' & Hok' & Hm' & Hr' & Htr' & Hin').
    + subst st1. unfold breakpoints_ok in *.
      cbn [emits breakpoint_store set_breakpoints set_rx breakpoints].
      by rewrite length_insert.
    + lia.
    + lia.
    + reflexivity.
    + exists st'. rewrite Hrun. split; [reflexivity|].
      split; [exact Hrx'|]. split; [lia|]. split; [exact Hok'|].
      split; [exact Hm'|]. split; [exact Hr'|]. split.
      * rewrite Htr'. subst st1. cbn [emits trace breakpoint_store set_breakpoints set_rx].
        cbn [flat_map]. unfold addr_B at 2; cbn [fst snd]. by rewrite app_assoc.
      * intros a. rewrite Hin'. subst st1.
        change (breakpoint_contains a (emits (tx_breakpoint_set w)
                  (breakpoint_store w (set_rx (flat_map cmd_B addrs ++ tail) st))))
          with (breakpoint_contains a (breakpoint_store w st)).
        rewrite breakpoint_contains_store.
        -- cbn [map In]. unfold addr_B at 2; cbn [fst snd]. fold w.
           split; [intros [[H| ->]|H] | intros [H|[<-|H]]]; auto.
        -- unfold MAX_BREAKPOINTS in *. lia.
        -- unfold breakpoints_ok, MAX_BREAKPOINTS in *. rewrite Hok. lia.
Qed.

Lemma breakpoint_contains_empty a st :
  breakpoint_count st = 0 -> breakpoint_contains a st = false.
Proof. intros H. unfold breakpoint_contains. by rewrite H. Qed.

(** C4.  Starting from an empty table, [MAX_BREAKPOINTS] SetBreakpoint
    commands in a row are all accepted (each answered by its success
    text), the next one is refused with the table-full text and leaves the
    table as it was, and afterwards the breakpoint scan finds exactly the
    addresses that were inserted. *)
Theorem breakpoint_table_capacity fuel env (st : state)
        (addrs : list (Z * Z)) (extra : Z * Z) (tail : list Z) :
  breakpoints_ok st ->
  breakpoint_count st = 0 ->
  length addrs = Z.to_nat MAX_BREAKPOINTS ->
  rx st = flat_map cmd_B addrs ++ cmd_B extra ++ tail ->
  exists st10 st11,
    run_commands (Z.to_nat MAX_BREAKPOINTS) fuel env st = Ret st10 /\
    trace st10 = trace st ++ flat_map (fun a => tx_breakpoint_set (addr_B a)) addrs /\
    handle_serial_command fuel env st10 = Ret st11 /\
    trace st11 = trace st10 ++ tx_string msg_breakpoints_full /\
    breakpoints st11 = breakpoints st10 /\
    breakpoint_count st11 = breakpoint_count st10 /\
    (forall a, breakpoint_contains a st10 = true <-> In a (map addr_B addrs)) /\
    (forall a, breakpoint_contains a st11 = true <-> In a (map addr_B addrs)).
Proof.
  intros Hok Hc Hlen Hrx.
  destruct (run_set_breakpoints fuel env addrs st (cmd_B extra ++ tail))
    as (st10 & Hrun & Hrx10 & Hc10 & Hok10 & _ & _ & Htr10 & Hin10);
    [exact Hok | lia | rewrite Hc, Hlen; unfold MAX_BREAKPOINTS; lia | exact Hrx |].
  assert (Hfull : MAX_BREAKPOINTS <= breakpoint_count st10).
  { rewrite Hc10, Hc, Hlen. unfold MAX_BREAKPOINTS. lia. }
  assert (Hin : forall a, breakpoint_contains a st10 = true <-> In a (map addr_B addrs)).
  { intros a. rewrite Hin10, (breakpoint_contains_empty a st Hc).
    split; [intros [H|H]; [discriminate | exact H] | auto]. }
  exists st10, (emits (tx_string msg_breakpoints_full) (set_rx (fst extra :: snd extra :: tail) st10)).
  rewrite <- Hlen. split; [exact Hrun|]. split; [exact Htr10|].
  split; [by apply handle_B_full|].
  repeat split; try reflexivity; apply Hin.
Qed.

Lemma breakpoint_table_capacity_witness :
  exists st10 st11,
    run_commands (Z.to_nat MAX_BREAKPOINTS) 0 idle_env
      (set_rx (flat_map cmd_B ten_addrs ++ cmd_B (32, 0) ++ [ch "H"]) blank_state) = Ret st10 /\
    trace st10 = [] ++ flat_map (fun a => tx_breakpoint_set (addr_B a)) ten_addrs /\
    handle_serial_command 0 idle_env st10 = Ret st11 /\
    trace st11 = trace st10 ++ tx_string msg_breakpoints_full /\
    breakpoints st11 = breakpoints st10 /\
    breakpoint_count st11 = breakpoint_count st10 /\
    (forall a, breakpoint_contains a st10 = true <-> In a (map addr_B ten_addrs)) /\
    (forall a, breakpoint_contains a st11 = true <-> In a (map addr_B ten_addrs)).
Proof.
  apply (breakpoint_table_capacity 0 idle_env
           (set_rx (flat_map cmd_B ten_addrs ++ cmd_B (32, 0) ++ [ch "H"]) blank_state)
           ten_addrs (32, 0) [ch "H"]).
  - vm_compute; reflexivity.
  - reflexivity.
  - reflexivity.
  - reflexivity.
Defined.

(** The stray address bytes of a refused SetBreakpoint are run as commands:
    here they halt and then release the CPU. *)
Example full_table_stray_commands :
  match run_commands 3 0 idle_env (full_table_state [ch "B"; ch "H"; ch "C"]) with
  | Ret st => trace st = tx_string msg_breakpoints_full
                         ++ tx_string (line "CPU halted.")
                         ++ tx_string (line "CPU continued.")
              /\ rx st = [] /\ breakpoint_count st = MAX_BREAKPOINTS
  | _ => False
  end.
Proof. vm_compute. repeat split. Qed.

(** ** Bulk load *)

Lemma store_bytes_length data : forall a m, length (store_bytes a data m) = length m.
Proof.
  induction data as [|d ds IH]; intros a m; cbn [store_bytes]; [reflexivity|].
  by rewrite IH, length_insert.
Qed.

Lemma store_bytes_lookup_out data :
  forall (a : nat) (m : list Z) (j : nat),
    (j < a \/ a + length data <= j)%nat -> store_bytes a data m !! j = m !! j.
Proof.
  induction data as [|d ds IH]; intros a m j Hj; cbn [store_bytes]; [reflexivity|].
  cbn [length] in Hj. rewrite IH by lia. apply list_lookup_insert_ne. lia.
Qed.

Lemma store_bytes_lookup_in data :
  forall (a : nat) (m : list Z) (k : nat),
    (k < length data)%nat -> (a + length data <= length m)%nat ->
    store_bytes a data m !! (a + k)%nat = data !! k.
Proof.
  induction data as [|d ds IH]; intros a m k Hk Hm; cbn [length] in *; [lia|].
  cbn [store_bytes]. destruct k as [|k].
  - rewrite Nat.add_0_r, store_bytes_lookup_out by lia.
    apply list_lookup_insert_eq. lia.
  - replace (a + S k)%nat with (S a + k)%nat by lia.
    rewrite IH; [reflexivity | lia | rewrite length_insert; lia].
Qed.

Lemma wrap16_small x : 0 <= x < 65536 -> wrap16 x = x.
Proof. intros H. unfold wrap16. by apply Z.mod_small. Qed.

Lemma word_of_bytes_range hi lo : 0 <= word_of_bytes hi lo < 65536.
Proof. unfold word_of_bytes, wrap16. apply Z.mod_pos_bound. lia. Qed.

(** While the addresses stay inside the array, the loop consumes one byte
    per pass and stores it. *)
Lemma load_loop_stores (A : Z) (data : list Z) :
  forall (n : nat) (i : Z) (st : state) (rest : list Z),
    rx st = data ++ rest ->
    0 <= A -> 0 <= i ->
    data = [] \/ A + i + Z.of_nat (length data) <= MEMORY_SIZE ->
    load_loop (length data + n) A i st
    = load_loop n A (i + Z.of_nat (length data))
        (set_rx rest (set_memory (store_bytes (Z.to_nat (A + i)) data (memory st)) st)).
Proof.
  induction data as [|d ds IH]; intros n i st rest Hrx HA Hi Hfit.
  - cbn [length Nat.add store_bytes]. rewrite Z.add_0_r.
    cbn in Hrx. f_equal. destruct st; cbn in *. by subst.
  - destruct Hfit as [Hnil|Hfit]; [discriminate|].
    cbn [length] in Hfit. cbn [length Nat.add load_loop].
    rewrite (receive_byte_cons d (ds ++ rest)) by exact Hrx. cbn [bind].
    unfold MEMORY_SIZE in Hfit.
    rewrite wrap16_small by lia.
    rewrite write_memory_in_range by (unfold MEMORY_SIZE; lia).
    change (1 =? 0) with false. cbv iota.
    rewrite (wrap16_small (i + 1)) by lia.
    rewrite (IH n (i + 1) _ rest);
      [| reflexivity | lia | lia | right; unfold MEMORY_SIZE; lia].
    cbn [store_bytes memory set_memory set_rx].
    replace (Z.to_nat (A + (i + 1))) with (S (Z.to_nat (A + i))) by lia.
    replace (i + 1 + Z.of_nat (length ds)) with (i + Z.of_nat (S (length ds))) by lia.
    reflexivity.
Qed.

(** Valid offsets below the first invalid one do not wrap around the
    16-bit address space. *)
Lemma valid_prefix_no_wrap (A i : Z) :
  0 <= A < 65536 -> 0 <= i < 65536 ->
  (forall k, 0 <= k < i -> wrap16 (A + k) < MEMORY_SIZE) ->
  i = 0 \/ A + i <= MEMORY_SIZE.
Proof.
  intros HA Hi Hvalid.
  destruct (Z.eq_dec i 0) as [->|Hne]; [by left | right].
  assert (H0 : A < MEMORY_SIZE).
  { specialize (Hvalid 0 ltac:(lia)). rewrite Z.add_0_r, wrap16_small in Hvalid; lia. }
  destruct (Z_le_gt_dec (A + i) MEMORY_SIZE) as [|Hgt]; [assumption|exfalso].
  specialize (Hvalid (MEMORY_SIZE - A) ltac:(lia)).
  replace (A + (MEMORY_SIZE - A)) with MEMORY_SIZE in Hvalid by lia.
  unfold MEMORY_SIZE in *. rewrite wrap16_small in Hvalid; lia.
Qed.

(** The state a Load command ends in when its loop stops at offset [i]:
    at [i = size] after the last byte, at [i < size] on the first address
    outside the array. *)
Lemma handle_L fuel env (st : state) (ah al sh sl : Z) (data tail : list Z) (i : Z) :
  let A := word_of_bytes ah al in
  let size := word_of_bytes sh sl in
  rx st = ch "L" :: ah :: al :: sh :: sl :: data ++ tail ->
  0 <= i <= size ->
  (forall k, 0 <= k < i -> wrap16 (A + k) < MEMORY_SIZE) ->
  (i < size -> MEMORY_SIZE <= wrap16 (A + i)) ->
  Z.of_nat (length data) = Z.min (i + 1) size ->
  handle_serial_command fuel env st
  = Ret (emits (tx_string (if i <? size then msg_load_error else msg_load_ok))
           (set_rx tail
              (set_memory (store_bytes (Z.to_nat A) (take (Z.to_nat i) data) (memory st)) st))).
Proof.
  intros A size Hrx Hi Hvalid Hstop Hlen.
  pose proof (word_of_bytes_range ah al) as HA. fold A in HA.
  pose proof (word_of_bytes_range sh sl) as Hsize. fold size in Hsize.
  assert (Hfit : i = 0 \/ A + i <= MEMORY_SIZE)
    by (apply valid_prefix_no_wrap; [lia | lia | exact Hvalid]).
  set (pre := take (Z.to_nat i) data).
  assert (Hpre : length pre = Z.to_nat i) by (subst pre; rewrite length_take; lia).
  unfold handle_serial_command.
  rewrite (receive_byte_cons _ _ _ Hrx). cbn [bind]. pick_case.
  rewrite (receive_word_cons ah al (sh :: sl :: data ++ tail)) by reflexivity. cbn [bind].
  rewrite (receive_word_cons sh sl (data ++ tail)) by reflexivity. cbn [bind].
  fold A size.
  replace (Z.to_nat size) with (length pre + Z.to_nat (size - i))%nat by lia.
  rewrite (load_loop_stores A pre _ 0 _ (drop (Z.to_nat i) data ++ tail)); cycle 1.
  { cbn [rx set_rx]. subst pre. by rewrite app_assoc, take_drop. }
  { lia. }
  { lia. }
  { destruct Hfit as [->|Hfit]; [left; reflexivity | right; lia]. }
  rewrite Hpre, Z.add_0_l, Z.add_0_r, Z2Nat.id by lia.
  cbn [memory set_rx].
  destruct (Z.ltb_spec i size) as [Hlt|Hge].
  - (* the loop meets an address outside the array *)
    assert (Hd : exists d, drop (Z.to_nat i) data = [d]).
    { assert (Hl : length (drop (Z.to_nat i) data) = 1%nat) by (rewrite length_drop; lia).
      destruct (drop (Z.to_nat i) data) as [|d [|]]; try discriminate. by exists d. }
    destruct Hd as [d ->].
    replace (Z.to_nat (size - i)) with (S (Z.to_nat (size - i - 1))) by lia.
    cbn [load_loop app].
    rewrite (receive_byte_cons d tail) by reflexivity. cbn [bind].
    rewrite write_memory_out_of_range by (apply Hstop; exact Hlt).
    change (0 =? 0) with true. cbv iota. cbn [bind].
    destruct (Z.eqb_spec i size); [lia|].
    by rewrite send_string_emits.
  - (* every byte was stored *)
    assert (Hd : drop (Z.to_nat i) data = []) by (apply drop_ge; lia).
    rewrite Hd. replace (Z.to_nat (size - i)) with 0%nat by lia.
    cbn [load_loop app bind].
    destruct (Z.eqb_spec i size); [|lia].
    by rewrite send_string_emits.
Qed.

(** C7.  A Load command whose loop stops at offset [i].  With [i = size]
    every address was valid (in particular [size = 0], where nothing is
    written) and the success text is sent.  With [i < size] the address at
    offset [i] is the first one outside the array: the bytes of offsets
    below [i] are in memory, no other cell was touched, nothing is undone,
    and the load-error text is sent in place of the success text. *)
Theorem load_stops_at_first_invalid fuel env (st : state)
        (ah al sh sl : Z) (data tail : list Z) (i : Z) :
  let A := word_of_bytes ah al in
  let size := word_of_bytes sh sl in
  memory_ok st ->
  rx st = ch "L" :: ah :: al :: sh :: sl :: data ++ tail ->
  0 <= i <= size ->
  (forall k, 0 <= k < i -> wrap16 (A + k) < MEMORY_SIZE) ->
  (i < size -> MEMORY_SIZE <= wrap16 (A + i)) ->
  Z.of_nat (length data) = Z.min (i + 1) size ->
  exists st',
    handle_serial_command fuel env st = Ret st' /\
    rx st' = tail /\
    trace st' = trace st ++ tx_string (if i <? size then msg_load_error else msg_load_ok) /\
    (forall k, 0 <= k < i ->
               memory st' !! Z.to_nat (A + k) = data !! Z.to_nat k /\
               is_Some (data !! Z.to_nat k)) /\
    (forall j : nat, (j < Z.to_nat A \/ Z.to_nat (A + i) <= j)%nat ->
                     memory st' !! j = memory st !! j) /\
    (i = 0 -> memory st' = memory st) /\
    memory_ok st'.
Proof.
  intros A size Hok Hrx Hi Hvalid Hstop Hlen.
  pose proof (word_of_bytes_range ah al) as HA. fold A in HA.
  pose proof (word_of_bytes_range sh sl) as Hsize. fold size in Hsize.
  assert (Hfit : i = 0 \/ A + i <= MEMORY_SIZE)
    by (apply valid_prefix_no_wrap; [lia | lia | exact Hvalid]).
  eexists. split; [by apply (handle_L fuel env st ah al sh sl data tail i)|].
  fold A size. cbn [rx trace memory emits set_rx set_memory].
  assert (Hpre : length (take (Z.to_nat i) data) = Z.to_nat i)
    by (rewrite length_take; lia).
  unfold memory_ok in *.
  split; [reflexivity|]. split; [reflexivity|]. split; [|split; [|split]].
  - intros k Hk.
    assert (Hlook : is_Some (data !! Z.to_nat k)) by (apply lookup_lt_is_Some_2; lia).
    split; [|exact Hlook].
    replace (Z.to_nat (A + k)) with (Z.to_nat A + Z.to_nat k)%nat by lia.
    rewrite store_bytes_lookup_in.
    + apply lookup_take_lt. lia.
    + lia.
    + rewrite Hok, Hpre. unfold MEMORY_SIZE in *. lia.
  - intros j Hj. apply store_bytes_lookup_out. rewrite Hpre. lia.
  - intros ->. reflexivity.
  - cbn [memory emits set_rx set_memory]. by rewrite store_bytes_length.
Qed.

Lemma load_stops_at_first_invalid_witness :
  exists st',
    handle_serial_command 0 idle_env
      (set_rx (ch "L" :: 15 :: 254 :: 0 :: 5 :: [17; 34; 51] ++ [68; 85]) blank_state) = Ret st' /\
    rx st' = [68; 85] /\
    trace st' = [] ++ tx_string msg_load_error /\
    (forall k, 0 <= k < 2 ->
               memory st' !! Z.to_nat (4094 + k) = [17; 34; 51] !! Z.to_nat k /\
               is_Some ([17; 34; 51] !! Z.to_nat k)) /\
    (forall j : nat, (j < Z.to_nat 4094 \/ Z.to_nat (4094 + 2) <= j)%nat ->
                     memory st' !! j = memory blank_state !! j) /\
    (2 = 0 -> memory st' = memory blank_state) /\
    memory_ok st'.
Proof.
  apply (load_stops_at_first_invalid 0 idle_env
           (set_rx (ch "L" :: 15 :: 254 :: 0 :: 5 :: [17; 34; 51] ++ [68; 85]) blank_state)
           15 254 0 5 [17; 34; 51] [68; 85] 2).
  - vm_compute; reflexivity.
  - reflexivity.
  - vm_compute; split; discriminate.
  - intros k Hk. assert (Hc : k = 0 \/ k = 1) by lia.
    destruct Hc as [-> | ->]; vm_compute; reflexivity.
  - intros _. vm_compute; discriminate.
  - reflexivity.
Defined.

(** A Load of size 0 sends the success text and leaves the memory alone. *)
Example load_size_zero :
  handle_serial_command 0 idle_env (set_rx [ch "L"; 32; 0; 0; 0; ch "H"] blank_state)
  = Ret (emits (tx_string msg_load_ok) (set_rx [ch "H"] blank_state)).
Proof. vm_compute. reflexivity. Qed.

(** ** BusResponder *)

Lemma breakpoint_reached_emits a st :
  breakpoint_reached a st = emits (tx_breakpoint_reached a) (halt_cpu st).
Proof.
  unfold breakpoint_reached.
  rewrite !send_string_emits, !send_byte_hex_emits, !emits_emits. reflexivity.
Qed.

Lemma bus_transaction_read p a st :
  bit_set (CONTROL_PIN p) CPU_RW = true ->
  bus_transaction p a st
  = write_DATA_DIR 0 (_delay_us 1
      (write_DATA_BUS (snd (read_memory a st)) (write_DATA_DIR 255 st))).
Proof.
  intros Hrw. unfold bus_transaction, read_memory. rewrite Hrw.
  destruct (a <? MEMORY_SIZE); reflexivity.
Qed.

Lemma bus_transaction_write p a st :
  bit_set (CONTROL_PIN p) CPU_RW = false ->
  bus_transaction p a st = snd (write_memory a (DATA_PIN p) (write_DATA_DIR 0 st)).
Proof. intros Hrw. unfold bus_transaction. by rewrite Hrw. Qed.

(** What the data transaction leaves behind, whichever way it goes. *)
Lemma bus_transaction_effects p a st :
  trace (bus_transaction p a st) = trace st ++ transaction_events p a st /\
  cpu_running (bus_transaction p a st) = cpu_running st /\
  DATA_DIR (bus_transaction p a st) = 0 /\
  breakpoints (bus_transaction p a st) = breakpoints st /\
  breakpoint_count (bus_transaction p a st) = breakpoint_count st.
Proof.
  unfold transaction_events.
  destruct (bit_set (CONTROL_PIN p) CPU_RW) eqn:Hrw.
  - rewrite bus_transaction_read by exact Hrw.
    cbn. rewrite <- !app_assoc. repeat split.
  - rewrite bus_transaction_write by exact Hrw.
    unfold write_memory. destruct (a <? MEMORY_SIZE); cbn; repeat split.
Qed.

Lemma tx_events_idle (l : list Z) : existsb drives_data (map EvTx l) = false.
Proof. induction l as [|b l IH]; [reflexivity | exact IH]. Qed.

Lemma tx_breakpoint_reached_idle a : existsb drives_data (tx_breakpoint_reached a) = false.
Proof.
  unfold tx_breakpoint_reached, tx_string. rewrite !existsb_app, !tx_events_idle.
  reflexivity.
Qed.

(** The two digits sent for a byte spell that byte. *)
Lemma hex_digits_of_byte d :
  is_byte d -> 16 * hex_value (hex_hi d) + hex_value (hex_lo d) = d.
Proof.
  intros Hd.
  assert (Hall : forallb (fun n => let d := Z.of_nat n in
                            16 * hex_value (hex_hi d) + hex_value (hex_lo d) =? d)
                         (seq 0 256) = true) by (vm_compute; reflexivity).
  rewrite forallb_forall in Hall.
  specialize (Hall (Z.to_nat d)). cbv zeta in Hall.
  unfold is_byte in Hd. rewrite Z2Nat.id in Hall by lia.
  apply Z.eqb_eq, Hall, in_seq. lia.
Qed.

Lemma tx_address_decodes a :
  is_word a -> address_of_digits (tx_address a) = Some a.
Proof.
  unfold is_word. intros Ha. unfold tx_address, address_of_digits. f_equal.
  assert (Hhi : is_byte (wrap8 (Z.shiftr a 8))).
  { unfold is_byte, wrap8. apply Z.mod_pos_bound. lia. }
  assert (Hlo : is_byte (wrap8 (Z.land a 255))).
  { unfold is_byte, wrap8. apply Z.mod_pos_bound. lia. }
  pose proof (hex_digits_of_byte _ Hhi) as H1.
  pose proof (hex_digits_of_byte _ Hlo) as H2.
  assert (E1 : wrap8 (Z.shiftr a 8) = a / 256).
  { unfold wrap8. rewrite Z.shiftr_div_pow2 by lia. change (2 ^ 8) with 256.
    apply Z.mod_small. split; [apply Z.div_pos; lia | apply Z.div_lt_upper_bound; lia]. }
  assert (E2 : wrap8 (Z.land a 255) = a mod 256).
  { unfold wrap8. change 255 with (Z.ones 8). rewrite Z.land_ones by lia.
    change (2 ^ 8) with 256. apply Z.mod_small. apply Z.mod_pos_bound. lia. }
  rewrite E1 in H1 |- *. rewrite E2 in H2 |- *.
  pose proof (Z.div_mod a 256 ltac:(lia)). lia.
Qed.

Lemma simulate_memory_effects p st :
  let a := bus_address p in
  let hit := breakpoint_contains a st in
  trace (simulate_memory p st)
  = trace st ++ (if hit then tx_breakpoint_reached a else []) ++ transaction_events p a st /\
  cpu_running (simulate_memory p st) = (if hit then 0 else cpu_running st) /\
  DATA_DIR (simulate_memory p st) = 0 /\
  breakpoints (simulate_memory p st) = breakpoints st /\
  breakpoint_count (simulate_memory p st) = breakpoint_count st.
Proof.
  intros a hit. unfold simulate_memory. fold a. fold hit.
  destruct (bus_transaction_effects p a (if hit then breakpoint_reached a st else st))
    as (Htr & Hrun & Hdir & Hbp & Hcnt).
  rewrite Htr, Hrun, Hdir, Hbp, Hcnt.
  destruct hit.
  - rewrite breakpoint_reached_emits. cbn [trace cpu_running emits halt_cpu set_cpu_running
      breakpoints breakpoint_count].
    rewrite <- app_assoc. repeat split.
  - cbn [app]. repeat split.
Qed.

(** C1 (as the code has it).  When the sampled address is in the breakpoint
    table, the responder halts the run state and sends the notification,
    whose four hexadecimal digits spell the address and which drives
    nothing.  A data value is still asserted in that cycle when the CPU is
    reading: after the notification the resolved byte is driven onto the
    data lines and released after the settle delay.  When the CPU is
    writing, no data value is asserted. *)
Theorem breakpoint_hit_halts_and_notifies (p : pins) (st : state) :
  breakpoint_contains (bus_address p) st = true ->
  let a := bus_address p in
  let st' := simulate_memory p st in
  cpu_running st' = 0 /\
  trace st' = trace st ++ tx_breakpoint_reached a ++ transaction_events p a st /\
  address_of_digits (tx_address a) = Some a /\
  existsb drives_data (tx_breakpoint_reached a) = false /\
  existsb drives_data (transaction_events p a st) = bit_set (CONTROL_PIN p) CPU_RW.
Proof.
  intros Hhit a st'.
  destruct (simulate_memory_effects p st) as (Htr & Hrun & _).
  fold a in Htr, Hrun. subst st'. fold a in Hhit. rewrite Hhit in Htr, Hrun.
  split; [exact Hrun|]. split; [exact Htr|]. split; [|split].
  - apply tx_address_decodes. apply word_of_bytes_range.
  - apply tx_breakpoint_reached_idle.
  - unfold transaction_events. destruct (bit_set (CONTROL_PIN p) CPU_RW); reflexivity.
Qed.

Lemma breakpoint_hit_halts_and_notifies_witness :
  let a := bus_address (read_pins 1 0) in
  let st' := simulate_memory (read_pins 1 0) hit_state in
  cpu_running st' = 0 /\
  trace st' = trace hit_state ++ tx_breakpoint_reached a
              ++ transaction_events (read_pins 1 0) a hit_state /\
  address_of_digits (tx_address a) = Some a /\
  existsb drives_data (tx_breakpoint_reached a) = false /\
  existsb drives_data (transaction_events (read_pins 1 0) a hit_state)
  = bit_set (CONTROL_PIN (read_pins 1 0)) CPU_RW.
Proof.
  apply (breakpoint_hit_halts_and_notifies (read_pins 1 0) hit_state).
  vm_compute; reflexivity.
Defined.

(** C1 as stated fails: with a breakpoint at 0x0100 and the CPU reading
    that address, the responder sends the notification and then drives the
    stored byte 0x42 onto the data lines. *)
Lemma breakpoint_hit_drives_data :
  breakpoint_contains (bus_address (read_pins 1 0)) hit_state = true /\
  trace (simulate_memory (read_pins 1 0) hit_state)
  = trace hit_state ++ tx_breakpoint_reached 256
    ++ [EvDataDir 255; EvDataBus 66; EvDelayUs 1; EvDataDir 0] /\
  ~ no_data_asserted (read_pins 1 0) hit_state.
Proof.
  split; [vm_compute; reflexivity|]. split; [vm_compute; reflexivity|].
  intros H. specialize (H _ eq_refl). vm_compute in H. discriminate.
Qed.

(** C8.  In a cycle where the read/write line shows a CPU write, the
    responder emits no event that drives the data lines: it never loads
    the output register, the only value it gives the direction register is
    0 (input), and the direction register is 0 when it returns. *)
Theorem cpu_write_never_drives (p : pins) (st : state) :
  bit_set (CONTROL_PIN p) CPU_RW = false ->
  let st' := simulate_memory p st in
  no_data_asserted p st /\
  In (EvDataDir 0) (transaction_events p (bus_address p) st) /\
  DATA_DIR st' = 0 /\
  DATA_BUS st' = DATA_BUS st.
Proof.
  intros Hrw st'.
  destruct (simulate_memory_effects p st) as (Htr & _ & Hdir & _).
  set (a := bus_address p) in *. set (hit := breakpoint_contains a st) in *.
  assert (Hev : transaction_events p a st = [EvDataDir 0])
    by (unfold transaction_events; by rewrite Hrw).
  split; [|split; [|split]].
  - intros evs Hevs. rewrite Htr in Hevs. apply app_inv_head in Hevs. subst evs.
    rewrite existsb_app, Hev. destruct hit; [|reflexivity].
    by rewrite tx_breakpoint_reached_idle.
  - rewrite Hev. by left.
  - exact Hdir.
  - subst st'. unfold simulate_memory. fold a. fold hit.
    rewrite bus_transaction_write by exact Hrw.
    unfold write_memory. destruct (a <? MEMORY_SIZE), hit;
      try rewrite breakpoint_reached_emits; reflexivity.
Qed.

Lemma cpu_write_never_drives_witness :
  let st' := simulate_memory (write_pins 1 0 7) hit_state in
  no_data_asserted (write_pins 1 0 7) hit_state /\
  In (EvDataDir 0) (transaction_events (write_pins 1 0 7) (bus_address (write_pins 1 0 7)) hit_state) /\
  DATA_DIR st' = 0 /\
  DATA_BUS st' = DATA_BUS hit_state.
Proof.
  apply (cpu_write_never_drives (write_pins 1 0 7) hit_state).
  vm_compute; reflexivity.
Defined.

(** ** StepController *)

Lemma clock_pulse_cpu_running st : cpu_running (clock_pulse st) = cpu_running st.
Proof. reflexivity. Qed.

Lemma bus_cycle_halted c st : cpu_running st = 0 -> cpu_running (bus_cycle c st) = 0.
Proof.
  intros H. unfold bus_cycle.
  destruct (simulate_memory_effects (cyc_pins c) (clock_pulse st)) as (_ & Hrun & _).
  rewrite Hrun, clock_pulse_cpu_running, H. by destruct (breakpoint_contains _ _).
Qed.

Lemma run_cycles_halted env n : forall k st,
  cpu_running st = 0 -> cpu_running (run_cycles env k n st) = 0.
Proof.
  induction n as [|n IH]; intros k st H; cbn [run_cycles]; [exact H|].
  apply IH. by apply bus_cycle_halted.
Qed.

Lemma run_cycles_app env n m : forall k st,
  run_cycles env k (n + m) st = run_cycles env (k + n) m (run_cycles env k n st).
Proof.
  induction n as [|n IH]; intros k st; cbn [run_cycles Nat.add].
  - by rewrite Nat.add_0_r.
  - rewrite IH. by replace (S k + n)%nat with (k + S n)%nat by lia.
Qed.

Section SteppingLoop.

Variable env : nat -> cycle.

(** [a] passes with SYNC low while no rise has been seen: keep waiting. *)
Lemma step_loop_await_rise (a : nat) : forall (fuel k : nat) (st : state),
  (forall x, (k <= x < k + a)%nat -> sync_at env x = false) ->
  step_loop (a + fuel) env k 0 st
  = step_loop fuel env (k + a) 0 (run_cycles env k a st).
Proof.
  induction a as [|a IH]; intros fuel k st Hlow; cbn [Nat.add step_loop run_cycles].
  - by rewrite Nat.add_0_r.
  - assert (Hk : sync_of (env k) = false) by (apply Hlow; lia).
    rewrite Hk. change (negb (0 =? 0)) with false. cbv iota.
    rewrite IH by (intros x Hx; apply Hlow; lia).
    by replace (S k + a)%nat with (k + S a)%nat by lia.
Qed.

(** [b] passes with SYNC high once a rise has been seen: keep waiting. *)
Lemma step_loop_await_fall (b : nat) : forall (fuel k : nat) (st : state),
  (forall x, (k <= x < k + b)%nat -> sync_at env x = true) ->
  step_loop (b + fuel) env k 1 st
  = step_loop fuel env (k + b) 1 (run_cycles env k b st).
Proof.
  induction b as [|b IH]; intros fuel k st Hhigh; cbn [Nat.add step_loop run_cycles].
  - by rewrite Nat.add_0_r.
  - assert (Hk : sync_of (env k) = true) by (apply Hhigh; lia).
    rewrite Hk. change (1 =? 0) with false. cbv iota.
    rewrite IH by (intros x Hx; apply Hhigh; lia).
    by replace (S k + b)%nat with (k + S b)%nat by lia.
Qed.

(** The first index at which a Boolean sequence is true. *)
Lemma first_true (P : nat -> bool) (n : nat) :
  P n = true ->
  exists m, (m <= n)%nat /\ P m = true /\ forall x, (x < m)%nat -> P x = false.
Proof.
  induction n as [n IH] using lt_wf_ind. intros Hn.
  destruct (forallb (fun x => negb (P x)) (seq 0 n)) eqn:Hall.
  - exists n. split; [lia|]. split; [exact Hn|].
    intros x Hx. rewrite forallb_forall in Hall.
    apply negb_true_iff, Hall, in_seq. lia.
  - assert (Hex : exists x, (x < n)%nat /\ P x = true).
    { apply not_true_iff_false in Hall.
      destruct (existsb P (seq 0 n)) eqn:Hexb.
      - apply existsb_exists in Hexb. destruct Hexb as (x & Hx & HPx).
        exists x. apply in_seq in Hx. split; [lia | exact HPx].
      - exfalso. apply Hall. apply forallb_forall. intros x Hx.
        apply negb_true_iff. destruct (P x) eqn:HPx; [|reflexivity].
        assert (existsb P (seq 0 n) = true) by (apply existsb_exists; eauto).
        congruence. }
    destruct Hex as (x & Hx & HPx).
    destruct (IH x Hx HPx) as (m & Hm & HPm & Hmin).
    exists m. split; [lia|]. split; [exact HPm | exact Hmin].
Qed.

(** Shape of a SYNC history in which a high sample is followed by a low
    one: [a] low samples, then [b >= 1] high samples, then a low one. *)
Lemma sync_pulse_shape (i j : nat) :
  (i < j)%nat -> sync_at env i = true -> sync_at env j = false ->
  exists a b : nat,
    (1 <= b)%nat /\ (a + b <= j)%nat /\
    (forall x, (x < a)%nat -> sync_at env x = false) /\
    (forall x, (a <= x < a + b)%nat -> sync_at env x = true) /\
    sync_at env (a + b) = false.
Proof.
  intros Hij Hi Hj.
  destruct (first_true (sync_at env) i Hi) as (a & Ha & Hsa & Hbefore).
  destruct (first_true (fun x => negb (sync_at env (S a + x))) (j - S a)) as (m & Hm & Hsm & Hmin).
  { replace (S a + (j - S a))%nat with j by lia. by rewrite Hj. }
  exists a, (S m). split; [lia|]. split; [lia|]. split; [exact Hbefore|]. split.
  - intros x Hx. destruct (Nat.eq_dec x a) as [->|Hne]; [exact Hsa|].
    specialize (Hmin (x - S a)%nat ltac:(lia)).
    replace (S a + (x - S a))%nat with x in Hmin by lia.
    by apply negb_false_iff in Hmin.
  - apply negb_true_iff in Hsm. by replace (a + S m)%nat with (S a + m)%nat by lia.
Qed.

(** One full pulse: the loop leaves in the pass that samples the fall. *)
Lemma step_loop_pulse (a b fuel : nat) (st : state) :
  (1 <= b)%nat ->
  (forall x, (x < a)%nat -> sync_at env x = false) ->
  (forall x, (a <= x < a + b)%nat -> sync_at env x = true) ->
  sync_at env (a + b) = false ->
  (a + b < fuel)%nat ->
  step_loop fuel env 0 0 st = Ret (run_cycles env 0 (S (a + b)) st).
Proof.
  intros Hb Hlow Hhigh Hfall Hfuel.
  replace fuel with (a + (S (b - 1) + S (fuel - a - b - 1)))%nat by lia.
  rewrite step_loop_await_rise by (intros x Hx; apply Hlow; lia).
  cbn [Nat.add].
  (* the pass that samples the rise *)
  cbn [step_loop]. assert (Ha : sync_of (env a) = true) by (apply Hhigh; lia).
  rewrite Ha. change (0 =? 0) with true. cbv iota.
  rewrite step_loop_await_fall by (intros x Hx; apply Hhigh; lia).
  (* the pass that samples the fall *)
  cbn [step_loop]. replace (S a + (b - 1))%nat with (a + b)%nat by lia.
  fold (sync_at env (a + b)). rewrite Hfall. change (negb (1 =? 0)) with true. cbv iota.
  f_equal.
  replace (S (a + b)) with (a + (1 + ((b - 1) + 1)))%nat by lia.
  rewrite !run_cycles_app. cbn [run_cycles Nat.add].
  replace (a + 1 + (b - 1))%nat with (a + b)%nat by lia.
  by replace (a + 1)%nat with (S a) by lia.
Qed.

(** If the loop leaves, a high sample was followed by a low one. *)
Lemma step_loop_returns_only_after_pulse (fuel : nat) :
  forall (k : nat) (sync_high : Z) (st st' : state),
    (sync_high <> 0 -> exists i, (i < k)%nat /\ sync_at env i = true) ->
    step_loop fuel env k sync_high st = Ret st' ->
    exists i j, (i < j < k + fuel)%nat /\ sync_at env i = true /\ sync_at env j = false.
Proof.
  induction fuel as [|fuel IH]; intros k sh st st' Hseen Hret; cbn [step_loop] in Hret.
  - discriminate.
  - destruct (sync_of (env k)) eqn:Hk.
    + apply IH in Hret.
      * destruct Hret as (i & j & Hij & Hi & Hj). exists i, j. split; [lia | auto].
      * intros _. exists k. split; [lia | exact Hk].
    + destruct (sh =? 0) eqn:Hsh; cbn [negb] in Hret.
      * apply IH in Hret.
        -- destruct Hret as (i & j & Hij & Hi & Hj). exists i, j. split; [lia | auto].
        -- intros Hne. apply Z.eqb_eq in Hsh. contradiction.
      * apply Z.eqb_neq in Hsh. destruct (Hseen Hsh) as (i & Hi & Hsi).
        exists i, k. split; [lia|]. split; [exact Hsi | exact Hk].
Qed.

Lemma step_loop_never_starved (fuel : nat) :
  forall (k : nat) (sync_high : Z) (st : state),
    step_loop fuel env k sync_high st <> RxStarved.
Proof.
  induction fuel as [|fuel IH]; intros k sh st; cbn [step_loop]; [discriminate|].
  destruct (sync_of (env k)); [apply IH|].
  destruct (negb (sh =? 0)); [discriminate | apply IH].
Qed.

End SteppingLoop.

(** C5.  When the sampled SYNC line shows a high sample followed later by
    a low one, the samples up to the first such fall read low ([a] times),
    high ([b >= 1] times), low: one assert-then-deassert.  [step_cpu]
    returns in the pass that samples that fall and in no earlier pass,
    after [a + b + 1] bus cycles (so at least one call of
    [simulate_memory]), with [cpu_running = 0]. *)
Theorem step_cpu_one_instruction (env : nat -> cycle) (st : state) (i j : nat) :
  (i < j)%nat ->
  sync_at env i = true ->
  sync_at env j = false ->
  exists a b : nat,
    (1 <= b)%nat /\ (a + b <= j)%nat /\
    (forall x, (x < a)%nat -> sync_at env x = false) /\
    (forall x, (a <= x < a + b)%nat -> sync_at env x = true) /\
    sync_at env (a + b) = false /\
    let st' := run_cycles env 0 (S (a + b)) (halt_cpu st) in
    (forall fuel, (a + b < fuel)%nat -> step_cpu fuel env st = Ret st') /\
    (forall fuel, (fuel <= a + b)%nat -> step_cpu fuel env st = StillStepping) /\
    st' = run_cycles env 1 (a + b)
            (simulate_memory (cyc_pins (env 0%nat)) (clock_pulse (halt_cpu st))) /\
    cpu_running st' = 0.
Proof.
  intros Hij Hi Hj.
  destruct (sync_pulse_shape env i j Hij Hi Hj) as (a & b & Hb & Hab & Hlow & Hhigh & Hfall).
  exists a, b. do 5 (split; [assumption|]).
  intros st'. split; [|split; [|split]].
  - intros fuel Hfuel. unfold step_cpu. by apply step_loop_pulse.
  - intros fuel Hfuel. unfold step_cpu.
    destruct (step_loop fuel env 0 0 (halt_cpu st)) as [s| |] eqn:Hrun.
    + exfalso.
      apply step_loop_returns_only_after_pulse in Hrun; [|intros H; contradiction].
      destruct Hrun as (x & y & Hxy & Hx & Hy).
      destruct (Nat.lt_ge_cases x a) as [Hxa|Hxa].
      * rewrite Hlow in Hx by exact Hxa. discriminate.
      * rewrite Hhigh in Hy by lia. discriminate.
    + exfalso. by apply step_loop_never_starved in Hrun.
    + reflexivity.
  - reflexivity.
  - apply run_cycles_halted. reflexivity.
Qed.

Lemma step_cpu_one_instruction_witness :
  exists a b : nat,
    (1 <= b)%nat /\ (a + b <= 3)%nat /\
    (forall x, (x < a)%nat -> sync_at one_fetch_env x = false) /\
    (forall x, (a <= x < a + b)%nat -> sync_at one_fetch_env x = true) /\
    sync_at one_fetch_env (a + b) = false /\
    let st' := run_cycles one_fetch_env 0 (S (a + b)) (halt_cpu blank_state) in
    (forall fuel, (a + b < fuel)%nat -> step_cpu fuel one_fetch_env blank_state = Ret st') /\
    (forall fuel, (fuel <= a + b)%nat -> step_cpu fuel one_fetch_env blank_state = StillStepping) /\
    st' = run_cycles one_fetch_env 1 (a + b)
            (simulate_memory (cyc_pins (one_fetch_env 0%nat)) (clock_pulse (halt_cpu blank_state))) /\
    cpu_running st' = 0.
Proof.
  apply (step_cpu_one_instruction one_fetch_env blank_state 1 3).
  - lia.
  - reflexivity.
  - reflexivity.
Defined.

(** C6.  When the sampled SYNC line never shows a high sample followed by
    a low one, [step_cpu] is still in its loop after any number of passes:
    the loop has no bound of its own and leaves only on such a fall. *)
Theorem step_cpu_waits_forever (env : nat -> cycle) (st : state) :
  (forall i j : nat, (i < j)%nat -> sync_at env i = true -> sync_at env j = false -> False) ->
  forall fuel, step_cpu fuel env st = StillStepping.
Proof.
  intros Hnever fuel. unfold step_cpu.
  destruct (step_loop fuel env 0 0 (halt_cpu st)) as [s| |] eqn:Hrun.
  - exfalso.
    apply step_loop_returns_only_after_pulse in Hrun; [|intros H; contradiction].
    destruct Hrun as (i & j & Hij & Hi & Hj). apply (Hnever i j); [lia | exact Hi | exact Hj].
  - exfalso. by apply step_loop_never_starved in Hrun.
  - reflexivity.
Qed.

Lemma step_cpu_waits_forever_witness :
  step_cpu 40 stuck_high_env blank_state = StillStepping.
Proof.
  apply (step_cpu_waits_forever stuck_high_env blank_state).
  intros i j _ _ Hj. vm_compute in Hj. discriminate.
Defined.

(** The loop also leaves only on a fall: a returning [step_cpu] has seen a
    high sample and, later, a low one. *)
Lemma step_cpu_returns_only_after_pulse (env : nat -> cycle) (st st' : state) (fuel : nat) :
  step_cpu fuel env st = Ret st' ->
  exists i j, (i < j < fuel)%nat /\ sync_at env i = true /\ sync_at env j = false.
Proof.
  intros Hrun. unfold step_cpu in Hrun.
  apply step_loop_returns_only_after_pulse in Hrun; [exact Hrun | intros H; contradiction].
Qed.

(** A Step command on a CPU that completes one opcode fetch. *)
Example step_command_one_fetch :
  match handle_serial_command 10 one_fetch_env (set_rx [ch "S"] blank_state) with
  | Ret st =>
      cpu_running st = 0 /\
      List.filter (fun e => match e with EvTx _ => true | _ => false end) (trace st)
      = tx_string (line "CPU stepped one instruction.") /\
      length (List.filter (fun e => match e with EvDataBus _ => true | _ => false end)
                          (trace st))
      = 4%nat
  | _ => False
  end.
Proof. vm_compute. repeat split. Qed.

(** * Further properties *)

(** ** MemoryStore: writes are local *)

(** X1.  A write leaves what every other address reads unchanged, whether the
    write itself is accepted or refused. *)
Theorem write_memory_other_address (st : state) (a a' b : Z) :
  0 <= a -> 0 <= a' -> a <> a' ->
  read_memory a' (snd (write_memory a b st)) = read_memory a' st.
Proof.
  intros Ha Ha' Hne. unfold write_memory, read_memory.
  destruct (a <? MEMORY_SIZE); cbn [snd]; [|reflexivity].
  destruct (a' <? MEMORY_SIZE); [|reflexivity].
  cbn [memory set_memory]. f_equal.
  apply list_lookup_total_insert_ne. lia.
Qed.

Lemma write_memory_other_address_witness :
  read_memory 17 (snd (write_memory 16 66 blank_state)) = read_memory 17 blank_state.
Proof. apply (write_memory_other_address blank_state 16 17 66); lia. Defined.

(** ** Checksum as an integrity check *)

Lemma xor_all_app l1 l2 : xor_all (l1 ++ l2) = Z.lxor (xor_all l1) (xor_all l2).
Proof.
  induction l1 as [|x l1 IH]; cbn [app xor_all fold_right].
  - by rewrite Z.lxor_0_l.
  - fold (xor_all (l1 ++ l2)). fold (xor_all l1). by rewrite IH, Z.lxor_assoc.
Qed.

Lemma lxor_cancel_l a b c : Z.lxor a b = Z.lxor a c -> b = c.
Proof.
  intros H.
  rewrite <- (Z.lxor_0_l b), <- (Z.lxor_0_l c), <- (Z.lxor_nilpotent a).
  by rewrite !Z.lxor_assoc, H.
Qed.

Lemma calculate_checksum_whole (data : list Z) :
  Forall is_byte data ->
  calculate_checksum data (Z.of_nat (length data)) = Some (xor_all data).
Proof.
  intros Hdata. unfold calculate_checksum.
  rewrite (checksum_loop_spec data Hdata _ 0%nat 0) by (unfold is_byte; lia).
  by rewrite drop_0, Z.lxor_0_l, Nat2Z.id, firstn_all.
Qed.

(** X2.  Appending its checksum to a buffer gives a buffer whose checksum is 0:
    a receiver checks a transfer by summing data and checksum together. *)
Theorem checksum_of_buffer_with_checksum (data : list Z) (c : Z) :
  Forall is_byte data ->
  calculate_checksum data (Z.of_nat (length data)) = Some c ->
  is_byte c /\
  calculate_checksum (data ++ [c]) (Z.of_nat (length (data ++ [c]))) = Some 0.
Proof.
  intros Hdata Hc. rewrite calculate_checksum_whole in Hc by exact Hdata.
  injection Hc as <-.
  assert (Hb : is_byte (xor_all data)) by (by apply xor_all_byte).
  split; [exact Hb|].
  rewrite calculate_checksum_whole.
  - rewrite xor_all_app. cbn [xor_all fold_right].
    by rewrite Z.lxor_0_r, Z.lxor_nilpotent.
  - apply Forall_app. split; [exact Hdata | by constructor].
Qed.

Lemma checksum_of_buffer_with_checksum_witness :
  is_byte 112 /\
  calculate_checksum ([18; 52; 86] ++ [112]) (Z.of_nat (length ([18; 52; 86] ++ [112]))) = Some 0.
Proof.
  apply (checksum_of_buffer_with_checksum [18; 52; 86] 112).
  - repeat constructor; unfold is_byte; lia.
  - reflexivity.
Defined.

(** X3.  The checksum of two buffers laid end to end is the XOR of their
    checksums. *)
Theorem checksum_of_concatenation (l1 l2 : list Z) :
  Forall is_byte l1 -> Forall is_byte l2 ->
  exists c1 c2,
    calculate_checksum l1 (Z.of_nat (length l1)) = Some c1 /\
    calculate_checksum l2 (Z.of_nat (length l2)) = Some c2 /\
    calculate_checksum (l1 ++ l2) (Z.of_nat (length (l1 ++ l2))) = Some (Z.lxor c1 c2).
Proof.
  intros H1 H2. exists (xor_all l1), (xor_all l2).
  rewrite !calculate_checksum_whole; try assumption.
  - by rewrite xor_all_app.
  - apply Forall_app. by split.
Qed.

Lemma checksum_of_concatenation_witness :
  exists c1 c2,
    calculate_checksum [1; 2] (Z.of_nat (length [1; 2])) = Some c1 /\
    calculate_checksum [4; 255] (Z.of_nat (length [4; 255])) = Some c2 /\
    calculate_checksum ([1; 2] ++ [4; 255]) (Z.of_nat (length ([1; 2] ++ [4; 255])))
    = Some (Z.lxor c1 c2).
Proof.
  apply (checksum_of_concatenation [1; 2] [4; 255]);
    repeat constructor; unfold is_byte; lia.
Defined.

(** X4.  Changing one byte of a buffer to a different value changes its
    checksum. *)
Theorem checksum_detects_one_changed_byte (data : list Z) (i : nat) (x y : Z) :
  Forall is_byte data ->
  data !! i = Some x ->
  is_byte y ->
  y <> x ->
  calculate_checksum (<[i := y]> data) (Z.of_nat (length (<[i := y]> data)))
  <> calculate_checksum data (Z.of_nat (length data)).
Proof.
  intros Hdata Hx Hy Hne.
  assert (Hdata' : Forall is_byte (<[i := y]> data)) by (by apply Forall_insert).
  rewrite !calculate_checksum_whole by assumption.
  intros Heq. injection Heq as Heq. apply Hne.
  assert (Hi : (i < length data)%nat) by (eapply lookup_lt_Some; eauto).
  rewrite <- (take_drop_middle data i x Hx) in Heq at 2.
  rewrite <- (take_drop_middle (<[i := y]> data) i y) in Heq
    by (by apply list_lookup_insert_eq).
  rewrite take_insert_ge, drop_insert_lt in Heq by lia.
  rewrite !xor_all_app in Heq. cbn [xor_all fold_right] in Heq.
  apply lxor_cancel_l in Heq.
  rewrite (Z.lxor_comm y), (Z.lxor_comm x) in Heq.
  by apply lxor_cancel_l in Heq.
Qed.

Lemma checksum_detects_one_changed_byte_witness :
  calculate_checksum (<[1%nat := 53]> [18; 52; 86])
                     (Z.of_nat (length (<[1%nat := 53]> [18; 52; 86])))
  <> calculate_checksum [18; 52; 86] (Z.of_nat (length [18; 52; 86])).
Proof.
  apply (checksum_detects_one_changed_byte [18; 52; 86] 1 52 53).
  - repeat constructor; unfold is_byte; lia.
  - reflexivity.
  - unfold is_byte; lia.
  - lia.
Defined.

(** ** Sixteen-bit arguments and hexadecimal replies *)

Lemma lor_shiftl8 hi lo : is_byte lo -> Z.lor (Z.shiftl hi 8) lo = 256 * hi + lo.
Proof.
  unfold is_byte. intros Hlo.
  assert (Hland : Z.land (Z.shiftl hi 8) lo = 0).
  { apply Z.bits_inj'. intros n Hn. rewrite Z.land_spec, Z.bits_0.
    destruct (Z.ltb_spec n 8).
    - rewrite Z.shiftl_spec_low by lia. reflexivity.
    - replace (Z.testbit lo n) with false; [apply andb_false_r|].
      symmetry. destruct (Z.eq_dec lo 0) as [->|]; [apply Z.bits_0|].
      apply Z.bits_above_log2; [lia|].
      assert (Z.log2 lo < 8) by (apply Z.log2_lt_pow2; lia). lia. }
  pose proof (Z.add_lor_land (Z.shiftl hi 8) lo) as H.
  rewrite Hland, Z.add_0_r in H. rewrite H, Z.shiftl_mul_pow2 by lia.
  change (2 ^ 8) with 256. lia.
Qed.

(** The two bytes of an address argument are read most significant first. *)
Theorem word_of_bytes_big_endian (hi lo : Z) :
  is_byte hi -> is_byte lo ->
  word_of_bytes hi lo = 256 * hi + lo /\ is_word (word_of_bytes hi lo).
Proof.
  intros Hhi Hlo. unfold word_of_bytes.
  unfold is_byte in Hhi.
  rewrite (wrap16_small (Z.shiftl hi 8))
    by (rewrite Z.shiftl_mul_pow2 by lia; change (2 ^ 8) with 256; lia).
  rewrite lor_shiftl8 by exact Hlo. unfold is_byte in Hlo.
  rewrite wrap16_small by lia. unfold is_word. lia.
Qed.

Lemma word_of_bytes_big_endian_witness :
  word_of_bytes 18 52 = 256 * 18 + 52 /\ is_word (word_of_bytes 18 52).
Proof. apply (word_of_bytes_big_endian 18 52); unfold is_byte; lia. Defined.

Lemma word_of_bytes_split w : is_word w -> word_of_bytes (w / 256) (w mod 256) = w.
Proof.
  unfold is_word. intros Hw.
  assert (Hhi : is_byte (w / 256)).
  { unfold is_byte. split; [apply Z.div_pos; lia | apply Z.div_lt_upper_bound; lia]. }
  assert (Hlo : is_byte (w mod 256)) by (unfold is_byte; apply Z.mod_pos_bound; lia).
  unfold word_of_bytes. unfold is_byte in Hhi.
  rewrite (wrap16_small (Z.shiftl (w / 256) 8))
    by (rewrite Z.shiftl_mul_pow2 by lia; change (2 ^ 8) with 256; lia).
  rewrite lor_shiftl8 by exact Hlo.
  pose proof (Z.div_mod w 256 ltac:(lia)).
  rewrite wrap16_small; lia.
Qed.

(** X6.  [send_byte_hex] sends exactly two characters, each one of 0-9 or A-F,
    and they spell the byte: high nibble first. *)
Theorem send_byte_hex_spells_byte (d : Z) (st : state) :
  is_byte d ->
  exists c1 c2,
    send_byte_hex d st = emits [EvTx c1; EvTx c2] st /\
    In c1 hex_digits /\ In c2 hex_digits /\
    hex_value c1 = d / 16 /\ hex_value c2 = d mod 16.
Proof.
  intros Hd. exists (hex_hi d), (hex_lo d).
  split; [apply send_byte_hex_emits|].
  assert (Hall : forallb (fun n => let d := Z.of_nat n in
                   existsb (Z.eqb (hex_hi d)) hex_digits
                   && existsb (Z.eqb (hex_lo d)) hex_digits
                   && (hex_value (hex_hi d) =? d / 16)
                   && (hex_value (hex_lo d) =? d mod 16))
                 (seq 0 256) = true) by (vm_compute; reflexivity).
  rewrite forallb_forall in Hall.
  specialize (Hall (Z.to_nat d)). cbv zeta in Hall.
  unfold is_byte in Hd. rewrite Z2Nat.id in Hall by lia.
  assert (Hin : In (Z.to_nat d) (seq 0 256)) by (apply in_seq; lia).
  apply Hall in Hin. rewrite !andb_true_iff in Hin.
  destruct Hin as [[[H1 H2] H3] H4].
  apply existsb_exists in H1. destruct H1 as (x1 & Hx1 & E1). apply Z.eqb_eq in E1.
  apply existsb_exists in H2. destruct H2 as (x2 & Hx2 & E2). apply Z.eqb_eq in E2.
  rewrite E1 at 1. rewrite E2 at 1.
  repeat split; [exact Hx1 | exact Hx2 | by apply Z.eqb_eq | by apply Z.eqb_eq].
Qed.

Lemma send_byte_hex_spells_byte_witness :
  exists c1 c2,
    send_byte_hex 171 blank_state = emits [EvTx c1; EvTx c2] blank_state /\
    In c1 hex_digits /\ In c2 hex_digits /\
    hex_value c1 = 171 / 16 /\ hex_value c2 = 171 mod 16.
Proof. apply (send_byte_hex_spells_byte 171 blank_state). unfold is_byte; lia. Defined.

(** ** Control lines: reset pulse, clock pulse, start-up *)

Lemma testbit_wrap8 x n : 0 <= n < 8 -> Z.testbit (wrap8 x) n = Z.testbit x n.
Proof.
  intros Hn. unfold wrap8. change 256 with (2 ^ 8).
  apply Z.mod_pow2_bits_low. lia.
Qed.

Lemma testbit_one_shifted k n : 0 <= k -> 0 <= n -> Z.testbit (Z.shiftl 1 k) n = (n =? k).
Proof.
  intros Hk Hn. rewrite Z.shiftl_1_l, Z.pow2_bits_eqb by lia. apply Z.eqb_sym.
Qed.

Lemma testbit_line_high v k n :
  0 <= k -> 0 <= n < 8 ->
  Z.testbit (wrap8 (Z.lor v (Z.shiftl 1 k))) n = (n =? k) || Z.testbit v n.
Proof.
  intros Hk Hn. rewrite testbit_wrap8, Z.lor_spec, testbit_one_shifted by lia.
  apply orb_comm.
Qed.

Lemma testbit_line_low v k n :
  0 <= k -> 0 <= n < 8 ->
  Z.testbit (wrap8 (Z.land v (Z.lnot (Z.shiftl 1 k)))) n = negb (n =? k) && Z.testbit v n.
Proof.
  intros Hk Hn.
  rewrite testbit_wrap8, Z.land_spec, Z.lnot_spec, testbit_one_shifted by lia.
  apply andb_comm.
Qed.

(** X7.  [reset_cpu] pulls the reset line low, waits 10 ms and raises it again;
    no other control line changes at any moment, and the CPU is marked as
    running. *)
Theorem reset_cpu_pulse (st : state) :
  exists low high,
    reset_cpu st
    = set_cpu_running 1
        (emits [EvControlPort low; EvDelayMs 10; EvControlPort high]
           (mkState (cpu_running st) (memory st) (breakpoints st) (breakpoint_count st)
                    (DATA_DIR st) (DATA_BUS st) high (rx st) (trace st))) /\
    Z.testbit low CPU_RESET = false /\
    Z.testbit high CPU_RESET = true /\
    (forall n, 0 <= n < 8 -> n <> CPU_RESET ->
               Z.testbit low n = Z.testbit (CONTROL_PORT st) n /\
               Z.testbit high n = Z.testbit (CONTROL_PORT st) n).
Proof.
  eexists _, _. split; [|split; [|split]].
  - unfold reset_cpu, write_CONTROL_PORT, _delay_ms.
    rewrite !emit_emits. cbn [CONTROL_PORT emits cpu_running memory breakpoints
      breakpoint_count DATA_DIR DATA_BUS rx trace].
    unfold set_cpu_running, emits. cbn. rewrite <- !app_assoc. reflexivity.
  - rewrite testbit_line_low by (unfold CPU_RESET; lia). reflexivity.
  - rewrite testbit_line_high by (unfold CPU_RESET; lia). reflexivity.
  - intros n Hn Hne.
    rewrite testbit_line_high, testbit_line_low by (unfold CPU_RESET; lia).
    destruct (Z.eqb_spec n CPU_RESET); [contradiction|]. cbn [negb orb andb]. auto.
Qed.

(** X8.  [clock_pulse] raises the clock line, holds it 1 us, lowers it and holds
    1 us; the clock line is low afterwards and no other control line
    changes at any moment. *)
Theorem clock_pulse_shape (st : state) :
  exists high low,
    trace (clock_pulse st)
    = trace st ++ [EvControlPort high; EvDelayUs 1; EvControlPort low; EvDelayUs 1] /\
    CONTROL_PORT (clock_pulse st) = low /\
    Z.testbit high CPU_CLOCK = true /\
    Z.testbit low CPU_CLOCK = false /\
    (forall n, 0 <= n < 8 -> n <> CPU_CLOCK ->
               Z.testbit high n = Z.testbit (CONTROL_PORT st) n /\
               Z.testbit low n = Z.testbit (CONTROL_PORT st) n).
Proof.
  eexists _, _. split; [|split; [|split; [|split]]].
  - unfold clock_pulse, write_CONTROL_PORT, _delay_us, emit. cbn.
    rewrite <- !app_assoc. reflexivity.
  - reflexivity.
  - rewrite testbit_line_high by (unfold CPU_CLOCK; lia). reflexivity.
  - rewrite testbit_line_low by (unfold CPU_CLOCK; lia). reflexivity.
  - intros n Hn Hne.
    rewrite testbit_line_low, !testbit_line_high by (unfold CPU_CLOCK; lia).
    destruct (Z.eqb_spec n CPU_CLOCK); [contradiction|]. cbn [negb orb andb]. auto.
Qed.

(** X5.  An address argument is the first byte received times 256 plus the
    second one; both bytes leave the input. *)
Theorem receive_word_big_endian (st : state) (hi lo : Z) (r : list Z) :
  rx st = hi :: lo :: r ->
  is_byte hi -> is_byte lo ->
  receive_word st = Ret (256 * hi + lo, set_rx r st) /\ is_word (256 * hi + lo).
Proof.
  intros Hrx Hhi Hlo.
  destruct (word_of_bytes_big_endian hi lo Hhi Hlo) as [Hval Hword].
  rewrite (receive_word_cons hi lo r st Hrx), Hval. split; [reflexivity|].
  by rewrite <- Hval.
Qed.

Lemma receive_word_big_endian_witness :
  receive_word (set_rx [18; 52; 7] blank_state) = Ret (256 * 18 + 52, set_rx [7] (set_rx [18; 52; 7] blank_state))
  /\ is_word (256 * 18 + 52).
Proof.
  apply (receive_word_big_endian (set_rx [18; 52; 7] blank_state) 18 52 [7]).
  - reflexivity.
  - unfold is_byte; lia.
  - unfold is_byte; lia.
Defined.

(** X9.  After [init_cpu_interface] the data lines are released, the reset, IRQ
    and NMI lines are high and the clock line is low, whatever the
    registers held before; the direction register makes reset, IRQ, NMI and
    clock outputs and RW and SYNC inputs.  The bits the function does not
    name keep their values, and the globals are untouched. *)
Theorem init_cpu_interface_lines (control_dir : Z) (st : state) :
  let dir' := fst (init_cpu_interface control_dir st) in
  let st' := snd (init_cpu_interface control_dir st) in
  DATA_DIR st' = 0 /\
  (forall n, 0 <= n < 8 ->
     Z.testbit (CONTROL_PORT st') n
     = if (n =? CPU_RESET) || (n =? CPU_IRQ) || (n =? CPU_NMI) then true
       else if n =? CPU_CLOCK then false
       else Z.testbit (CONTROL_PORT st) n) /\
  (forall n, 0 <= n < 8 ->
     Z.testbit dir' n
     = if (n =? CPU_RW) || (n =? CPU_SYNC) then false
       else if (n =? CPU_RESET) || (n =? CPU_IRQ) || (n =? CPU_NMI) || (n =? CPU_CLOCK)
            then true
            else Z.testbit control_dir n) /\
  cpu_running st' = cpu_running st /\
  memory st' = memory st /\
  breakpoints st' = breakpoints st /\
  breakpoint_count st' = breakpoint_count st.
Proof.
  intros dir' st'. subst dir' st'. unfold init_cpu_interface. cbn [fst snd].
  split; [reflexivity|]. split; [|split; [|repeat split]].
  - intros n Hn. cbn [CONTROL_PORT write_CONTROL_PORT write_DATA_DIR emit].
    rewrite testbit_line_low, !testbit_line_high by (unfold CPU_RESET, CPU_IRQ, CPU_NMI, CPU_CLOCK; lia).
    destruct (Z.eqb_spec n CPU_RESET) as [->|]; [reflexivity|].
    destruct (Z.eqb_spec n CPU_IRQ) as [->|]; [reflexivity|].
    destruct (Z.eqb_spec n CPU_NMI) as [->|]; [reflexivity|].
    destruct (Z.eqb_spec n CPU_CLOCK) as [->|]; reflexivity.
  - intros n Hn.
    rewrite testbit_wrap8, Z.land_spec, Z.lnot_spec, Z.lor_spec by lia.
    rewrite testbit_wrap8, !Z.lor_spec by lia.
    rewrite !testbit_one_shifted by (unfold CPU_RESET, CPU_IRQ, CPU_NMI, CPU_CLOCK, CPU_RW, CPU_SYNC; lia).
    rewrite (andb_comm _ (negb _)), (orb_comm (Z.testbit control_dir n)).
    destruct (Z.eqb_spec n CPU_RW) as [->|]; [reflexivity|].
    destruct (Z.eqb_spec n CPU_SYNC) as [->|]; [reflexivity|].
    destruct (Z.eqb_spec n CPU_RESET) as [->|]; [reflexivity|].
    destruct (Z.eqb_spec n CPU_IRQ) as [->|]; [reflexivity|].
    destruct (Z.eqb_spec n CPU_NMI) as [->|]; [reflexivity|].
    destruct (Z.eqb_spec n CPU_CLOCK) as [->|]; reflexivity.
Qed.

(** ** UART divisor *)

Lemma high_byte_of_word w : is_word w -> wrap8 (Z.shiftr w 8) = w / 256.
Proof.
  unfold is_word, wrap8. intros Hw. rewrite Z.shiftr_div_pow2 by lia.
  change (2 ^ 8) with 256. apply Z.mod_small.
  split; [apply Z.div_pos; lia | apply Z.div_lt_upper_bound; lia].
Qed.

Lemma low_byte_of_word w : is_word w -> wrap8 (Z.land w 255) = w mod 256.
Proof.
  unfold is_word, wrap8. intros Hw. change 255 with (Z.ones 8).
  rewrite Z.land_ones by lia. change (2 ^ 8) with 256.
  apply Z.mod_small. apply Z.mod_pos_bound. lia.
Qed.

Lemma init_serial_ubrr F RXEN0 TXEN0 UCSZ01 UCSZ00 baud u :
  ubrr_of F baud = Some u ->
  exists cfg,
    init_serial F RXEN0 TXEN0 UCSZ01 UCSZ00 baud = Some cfg /\
    UBRR0H cfg = u / 256 /\ UBRR0L cfg = u mod 256 /\
    word_of_bytes (UBRR0H cfg) (UBRR0L cfg) = u.
Proof.
  intros Hu. unfold init_serial. rewrite Hu. eexists. split; [reflexivity|].
  cbn [UBRR0H UBRR0L].
  assert (Hw : is_word u).
  { unfold ubrr_of in Hu. destruct (wrap32 (16 * baud) =? 0); [discriminate|].
    injection Hu as <-. unfold is_word, wrap16. apply Z.mod_pos_bound. lia. }
  rewrite high_byte_of_word, low_byte_of_word by exact Hw.
  split; [reflexivity|]. split; [reflexivity|]. by apply word_of_bytes_split.
Qed.

(** X10.  For a baud rate the clock can reach, the two divisor registers hold,
    high byte and low byte, the largest [u] with
    [16 * baud_rate * (u + 1) <= F_CPU]: the UART never runs slower than
    asked. *)
Theorem init_serial_divisor (F_CPU RXEN0 TXEN0 UCSZ01 UCSZ00 baud_rate : Z) :
  0 < baud_rate ->
  16 * baud_rate <= F_CPU < 4294967296 ->
  F_CPU / (16 * baud_rate) <= 65536 ->
  exists cfg,
    init_serial F_CPU RXEN0 TXEN0 UCSZ01 UCSZ00 baud_rate = Some cfg /\
    is_byte (UBRR0H cfg) /\ is_byte (UBRR0L cfg) /\
    let u := 256 * UBRR0H cfg + UBRR0L cfg in
    16 * baud_rate * (u + 1) <= F_CPU < 16 * baud_rate * (u + 2).
Proof.
  intros Hbaud HF Hq.
  set (d := 16 * baud_rate) in *. set (q := F_CPU / d) in *.
  assert (Hq1 : 1 <= q) by (apply Z.div_le_lower_bound; lia).
  assert (Hu : ubrr_of F_CPU baud_rate = Some (q - 1)).
  { unfold ubrr_of. fold d. unfold wrap32. rewrite (Z.mod_small d) by lia.
    destruct (Z.eqb_spec d 0); [lia|]. fold q.
    rewrite Z.mod_small by lia. rewrite wrap16_small by lia. reflexivity. }
  destruct (init_serial_ubrr F_CPU RXEN0 TXEN0 UCSZ01 UCSZ00 baud_rate _ Hu)
    as (cfg & Hcfg & Hhi & Hlo & _).
  exists cfg. split; [exact Hcfg|]. rewrite Hhi, Hlo.
  split; [|split].
  - unfold is_byte. split; [apply Z.div_pos; lia | apply Z.div_lt_upper_bound; lia].
  - unfold is_byte. apply Z.mod_pos_bound. lia.
  - cbv zeta. rewrite <- (Z.div_mod (q - 1) 256) by lia.
    replace (q - 1 + 1) with q by lia. replace (q - 1 + 2) with (q + 1) by lia.
    pose proof (Z.div_mod F_CPU d ltac:(lia)) as Hdm. fold q in Hdm.
    pose proof (Z.mod_pos_bound F_CPU d ltac:(lia)). nia.
Qed.

Lemma init_serial_divisor_witness :
  exists cfg,
    init_serial 16000000 4 3 2 1 9600 = Some cfg /\
    is_byte (UBRR0H cfg) /\ is_byte (UBRR0L cfg) /\
    let u := 256 * UBRR0H cfg + UBRR0L cfg in
    16 * 9600 * (u + 1) <= 16000000 < 16 * 9600 * (u + 2).
Proof.
  apply (init_serial_divisor 16000000 4 3 2 1 9600).
  - lia.
  - lia.
  - vm_compute; discriminate.
Defined.

(** X11.  For a baud rate above [F_CPU / 16] the quotient is 0, the subtraction
    wraps, and both divisor registers are loaded with 0xFF: the slowest
    rate the UART has, not the fastest. *)
Theorem init_serial_baud_too_high (F_CPU RXEN0 TXEN0 UCSZ01 UCSZ00 baud_rate : Z) :
  0 <= F_CPU < 16 * baud_rate ->
  16 * baud_rate < 4294967296 ->
  exists cfg,
    init_serial F_CPU RXEN0 TXEN0 UCSZ01 UCSZ00 baud_rate = Some cfg /\
    UBRR0H cfg = 255 /\ UBRR0L cfg = 255.
Proof.
  intros HF Hd.
  assert (Hu : ubrr_of F_CPU baud_rate = Some 65535).
  { unfold ubrr_of, wrap32. rewrite (Z.mod_small (16 * baud_rate)) by lia.
    destruct (Z.eqb_spec (16 * baud_rate) 0); [lia|].
    rewrite Z.div_small by lia. reflexivity. }
  destruct (init_serial_ubrr F_CPU RXEN0 TXEN0 UCSZ01 UCSZ00 baud_rate _ Hu)
    as (cfg & Hcfg & Hhi & Hlo & _).
  exists cfg. by rewrite Hhi, Hlo.
Qed.

Lemma init_serial_baud_too_high_witness :
  exists cfg,
    init_serial 1000000 4 3 2 1 115200 = Some cfg /\
    UBRR0H cfg = 255 /\ UBRR0L cfg = 255.
Proof. apply (init_serial_baud_too_high 1000000 4 3 2 1 115200); lia. Defined.

(** ** Invariants of the globals *)

Ltac fields :=
  cbn [cpu_running memory breakpoints breakpoint_count DATA_DIR DATA_BUS
       CONTROL_PORT rx trace set_cpu_running set_memory set_breakpoints set_rx
       emit emits write_DATA_DIR write_DATA_BUS write_CONTROL_PORT
       _delay_us _delay_ms send_byte halt_cpu release_cpu reset_cpu
       clock_pulse fst snd] in *.

Ltac kept_now :=
  rewrite ?send_string_emits, ?send_address_emits, ?send_byte_hex_emits;
  unfold tables_kept; fields; repeat split; auto.

Lemma tables_kept_refl st : tables_kept st st.
Proof. kept_now. Qed.

Lemma tables_kept_trans st1 st2 st3 :
  tables_kept st1 st2 -> tables_kept st2 st3 -> tables_kept st1 st3.
Proof.
  unfold tables_kept. intros (Hm & Hb & Hc & Hd) (Hm' & Hb' & Hc' & Hd').
  repeat split; try congruence.
  destruct Hd' as [Hd'|Hd']; [|by right].
  destruct Hd as [Hd|Hd]; [left | right]; congruence.
Qed.

Lemma tables_kept_state_ok st st' : tables_kept st st' -> state_ok st -> state_ok st'.
Proof.
  unfold tables_kept, state_ok, memory_ok, breakpoints_ok.
  intros (Hm & Hb & Hc & Hd) (Hmo & Hbo & Hco & Hdo).
  rewrite Hm, Hb, Hc. repeat split; try assumption; lia.
Qed.

Lemma tables_kept_contains st st' a :
  tables_kept st st' -> breakpoint_contains a st' = breakpoint_contains a st.
Proof.
  unfold tables_kept, breakpoint_contains. intros (_ & Hb & Hc & _). by rewrite Hb, Hc.
Qed.

Lemma write_memory_kept a b st : tables_kept st (snd (write_memory a b st)).
Proof.
  unfold write_memory. destruct (a <? MEMORY_SIZE); [|apply tables_kept_refl].
  kept_now. apply length_insert.
Qed.

Lemma simulate_memory_kept p st :
  tables_kept st (simulate_memory p st) /\ DATA_DIR (simulate_memory p st) = 0.
Proof.
  destruct (simulate_memory_effects p st) as (_ & _ & Hdir & Hbp & Hcnt).
  split; [|exact Hdir].
  unfold tables_kept. split; [|auto].
  unfold simulate_memory, bus_transaction.
  set (st1 := if breakpoint_contains _ _ then _ else _).
  assert (Hm1 : memory st1 = memory st).
  { subst st1. destruct (breakpoint_contains _ _); [|reflexivity].
    by rewrite breakpoint_reached_emits. }
  rewrite <- Hm1.
  destruct (bit_set _ _).
  - unfold read_memory. destruct (_ <? MEMORY_SIZE); reflexivity.
  - unfold write_memory. destruct (_ <? MEMORY_SIZE); fields; [apply length_insert | reflexivity].
Qed.

Lemma bus_cycle_kept c st :
  tables_kept st (bus_cycle c st) /\ DATA_DIR (bus_cycle c st) = 0.
Proof.
  unfold bus_cycle.
  destruct (simulate_memory_kept (cyc_pins c) (clock_pulse st)) as [Hk Hd].
  split; [|exact Hd].
  eapply tables_kept_trans; [|exact Hk]. kept_now.
Qed.

Lemma step_loop_kept env (fuel : nat) :
  forall k sh st st', step_loop fuel env k sh st = Ret st' -> tables_kept st st'.
Proof.
  induction fuel as [|fuel IH]; intros k sh st st' H; cbn [step_loop] in H; [discriminate|].
  destruct (bus_cycle_kept (env k) st) as [Hk _].
  destruct (sync_of (env k)).
  - eapply tables_kept_trans; [exact Hk | eapply IH; exact H].
  - destruct (negb (sh =? 0)).
    + injection H as <-. exact Hk.
    + eapply tables_kept_trans; [exact Hk | eapply IH; exact H].
Qed.

Lemma receive_byte_kept st b st' : receive_byte st = Ret (b, st') -> tables_kept st st'.
Proof.
  unfold receive_byte. destruct (rx st); [discriminate|].
  intros H. injection H as <- <-. kept_now.
Qed.

Lemma receive_word_kept st w st' : receive_word st = Ret (w, st') -> tables_kept st st'.
Proof.
  unfold receive_word.
  destruct (receive_byte st) as [[hi st1]| |] eqn:H1; cbn [bind]; try discriminate.
  destruct (receive_byte st1) as [[lo st2]| |] eqn:H2; cbn [bind]; try discriminate.
  intros H. injection H as <- <-.
  eapply tables_kept_trans; eapply receive_byte_kept; eauto.
Qed.

Lemma load_loop_kept (n : nat) :
  forall A i st i' st', load_loop n A i st = Ret (i', st') -> tables_kept st st'.
Proof.
  induction n as [|n IH]; intros A i st i' st' H; cbn [load_loop] in H.
  - injection H as <- <-. apply tables_kept_refl.
  - destruct (receive_byte st) as [[d st1]| |] eqn:H1; cbn [bind] in H; try discriminate.
    apply receive_byte_kept in H1.
    pose proof (write_memory_kept (wrap16 (A + i)) d st1) as Hw.
    destruct (write_memory (wrap16 (A + i)) d st1) as [ok st2]. cbn [snd] in Hw.
    destruct (ok =? 0).
    + injection H as <- <-.
      eapply tables_kept_trans; [exact H1|]. eapply tables_kept_trans; [exact Hw|]. kept_now.
    + apply IH in H.
      eapply tables_kept_trans; [exact H1|]. eapply tables_kept_trans; [exact Hw | exact H].
Qed.

(** Every command but SetBreakpoint leaves the tables as they are. *)
Lemma handle_other_kept fuel env st st' c r :
  rx st = c :: r -> c <> ch "B" ->
  handle_serial_command fuel env st = Ret st' -> tables_kept st st'.
Proof.
  intros Hrx HB H. unfold handle_serial_command in H.
  rewrite (receive_byte_cons _ _ _ Hrx) in H. cbn [bind] in H.
  assert (K0 : tables_kept st (set_rx r st)) by kept_now.
  set (st1 := set_rx r st) in *.
  eapply tables_kept_trans; [exact K0|]. clearbody st1. clear K0 Hrx.
  destruct (c =? ch "R"); [injection H as <-; kept_now|].
  destruct (c =? ch "H"); [injection H as <-; kept_now|].
  destruct (c =? ch "C"); [injection H as <-; kept_now|].
  destruct (c =? ch "S").
  { unfold step_cpu in H.
    destruct (step_loop fuel env 0 0 (halt_cpu st1)) as [s| |] eqn:Hs; try discriminate.
    injection H as <-. apply step_loop_kept in Hs.
    eapply tables_kept_trans; [|eapply tables_kept_trans; [exact Hs|]]; kept_now. }
  destruct (c =? ch "W").
  { destruct (receive_word st1) as [[w st2]| |] eqn:Hw; cbn [bind] in H; try discriminate.
    apply receive_word_kept in Hw.
    destruct (receive_byte st2) as [[d st3]| |] eqn:Hd; cbn [bind] in H; try discriminate.
    apply receive_byte_kept in Hd.
    pose proof (write_memory_kept w d st3) as Hwm.
    destruct (write_memory w d st3) as [ok st4]. cbn [snd] in Hwm.
    eapply tables_kept_trans; [exact Hw|]. eapply tables_kept_trans; [exact Hd|].
    eapply tables_kept_trans; [exact Hwm|].
    destruct (negb (ok =? 0)); injection H as <-; kept_now. }
  destruct (c =? ch "M").
  { destruct (receive_word st1) as [[w st2]| |] eqn:Hw; cbn [bind] in H; try discriminate.
    apply receive_word_kept in Hw.
    eapply tables_kept_trans; [exact Hw|].
    destruct (read_memory w st2) as [ok d].
    destruct (negb (ok =? 0)); injection H as <-; kept_now. }
  destruct (c =? ch "L").
  { destruct (receive_word st1) as [[A st2]| |] eqn:HA; cbn [bind] in H; try discriminate.
    apply receive_word_kept in HA.
    destruct (receive_word st2) as [[size st3]| |] eqn:Hsz; cbn [bind] in H; try discriminate.
    apply receive_word_kept in Hsz.
    destruct (load_loop (Z.to_nat size) A 0 st3) as [[i st4]| |] eqn:Hl;
      cbn [bind] in H; try discriminate.
    apply load_loop_kept in Hl.
    eapply tables_kept_trans; [exact HA|]. eapply tables_kept_trans; [exact Hsz|].
    eapply tables_kept_trans; [exact Hl|].
    destruct (i =? size); injection H as <-; kept_now. }
  destruct (Z.eqb_spec c (ch "B")); [contradiction|].
  destruct (c =? ch "G"); injection H as <-; kept_now.
Qed.

(** SetBreakpoint either refuses and keeps the tables, or stores the address
    in the next free cell. *)
Lemma handle_B_cases fuel env st st' r :
  rx st = ch "B" :: r ->
  handle_serial_command fuel env st = Ret st' ->
  (MAX_BREAKPOINTS <= breakpoint_count st /\ tables_kept st st') \/
  (breakpoint_count st < MAX_BREAKPOINTS /\
   exists w, tables_kept (breakpoint_store w st) st').
Proof.
  intros Hrx H.
  destruct (Z_le_gt_dec MAX_BREAKPOINTS (breakpoint_count st)) as [Hfull|Hroom].
  - left. split; [exact Hfull|].
    rewrite (handle_B_full fuel env st r Hrx Hfull) in H. injection H as <-. kept_now.
  - right. split; [lia|].
    destruct r as [|hi [|lo r]].
    + exfalso. unfold handle_serial_command in H.
      rewrite (receive_byte_cons _ _ _ Hrx) in H. cbn [bind] in H. pick_case.
      revert H. pick_case. fields.
      destruct (Z.geb_spec (breakpoint_count st) MAX_BREAKPOINTS); [lia|]. discriminate.
    + exfalso. unfold handle_serial_command in H.
      rewrite (receive_byte_cons _ _ _ Hrx) in H. cbn [bind] in H.
      revert H. pick_case. fields.
      destruct (Z.geb_spec (breakpoint_count st) MAX_BREAKPOINTS); [lia|]. discriminate.
    + rewrite (handle_B_ok fuel env st hi lo r Hrx) in H by lia. injection H as <-.
      exists (word_of_bytes hi lo). unfold breakpoint_store. kept_now.
Qed.

Lemma breakpoint_store_state_ok w st :
  state_ok st -> breakpoint_count st < MAX_BREAKPOINTS -> state_ok (breakpoint_store w st).
Proof.
  unfold state_ok, memory_ok, breakpoints_ok, breakpoint_store, MAX_BREAKPOINTS.
  intros (Hm & Hb & Hc & Hd) Hroom. fields.
  rewrite length_insert, wrap8_byte by (unfold is_byte; lia).
  repeat split; auto; lia.
Qed.

Lemma handle_serial_command_keeps fuel env st st' :
  state_ok st ->
  handle_serial_command fuel env st = Ret st' ->
  state_ok st' /\
  (forall a, breakpoint_contains a st = true -> breakpoint_contains a st' = true).
Proof.
  intros Hok H.
  destruct (rx st) as [|c r] eqn:Hrx.
  { unfold handle_serial_command, receive_byte in H. rewrite Hrx in H. discriminate. }
  destruct (Z.eq_dec c (ch "B")) as [->|Hne].
  - destruct (handle_B_cases fuel env st st' r Hrx H) as [[_ Hk] | [Hroom (w & Hk)]].
    + split; [by apply (tables_kept_state_ok st) |].
      intros a Ha. by rewrite (tables_kept_contains st st' a Hk).
    + split.
      * apply (tables_kept_state_ok _ _ Hk). by apply breakpoint_store_state_ok.
      * intros a Ha. rewrite (tables_kept_contains _ _ a Hk).
        destruct Hok as (_ & Hb & Hc & _). unfold breakpoints_ok, MAX_BREAKPOINTS in *.
        apply breakpoint_contains_store; [lia | rewrite Hb; lia | by left].
  - pose proof (handle_other_kept fuel env st st' c r Hrx Hne H) as Hk.
    split; [by apply (tables_kept_state_ok st) |].
    intros a Ha. by rewrite (tables_kept_contains st st' a Hk).
Qed.

Lemma blank_state_ok : state_ok blank_state.
Proof.
  unfold state_ok, memory_ok, breakpoints_ok, blank_state, MAX_BREAKPOINTS. fields.
  rewrite !length_replicate. repeat split; lia.
Qed.

(** X12.  Whatever bytes arrive, a dispatcher call that returns leaves both arrays
    at their sizes, the breakpoint count within [0, MAX_BREAKPOINTS] (so the
    store [breakpoints[breakpoint_count++]] never leaves the array) and the
    data lines released. *)
Theorem dispatcher_keeps_invariant fuel env (st st' : state) :
  state_ok st ->
  handle_serial_command fuel env st = Ret st' ->
  state_ok st'.
Proof. intros Hok H. by destruct (handle_serial_command_keeps fuel env st st' Hok H). Qed.

Lemma dispatcher_keeps_invariant_witness :
  state_ok (emits (tx_breakpoint_set 256)
              (breakpoint_store 256 (set_rx [] (set_rx [ch "B"; 1; 0] blank_state)))).
Proof.
  apply (dispatcher_keeps_invariant 0 idle_env (set_rx [ch "B"; 1; 0] blank_state)).
  - unfold state_ok. split; [vm_compute; reflexivity|]. split; [reflexivity|].
    split; [vm_compute; split; discriminate | reflexivity].
  - reflexivity.
Defined.

(** X13.  No command removes a breakpoint: an address the scan finds before a
    dispatcher call is still found after it. *)
Theorem dispatcher_never_removes_breakpoint fuel env (st st' : state) (a : Z) :
  state_ok st ->
  handle_serial_command fuel env st = Ret st' ->
  breakpoint_contains a st = true ->
  breakpoint_contains a st' = true.
Proof.
  intros Hok H. destruct (handle_serial_command_keeps fuel env st st' Hok H) as [_ Hk].
  apply Hk.
Qed.

Lemma dispatcher_never_removes_breakpoint_witness :
  breakpoint_contains 256
    (emits (tx_breakpoint_set 512)
       (breakpoint_store 512 (set_rx [] (set_rx [ch "B"; 2; 0] hit_state)))) = true.
Proof.
  apply (dispatcher_never_removes_breakpoint 0 idle_env
           (set_rx [ch "B"; 2; 0] hit_state) _ 256).
  - unfold state_ok. split; [vm_compute; reflexivity|]. split; [reflexivity|].
    split; [vm_compute; split; discriminate | reflexivity].
  - reflexivity.
  - reflexivity.
Defined.

(** ** BusResponder: further behaviour *)

(** X14.  The responder never touches the breakpoint table or the size of the
    memory array, always returns with the data lines released, and never
    sets the CPU running: the run flag is cleared on a breakpoint hit and
    otherwise left alone. *)
Theorem responder_keeps_invariant (p : pins) (st : state) :
  memory_ok st -> breakpoints_ok st ->
  0 <= breakpoint_count st <= MAX_BREAKPOINTS ->
  let st' := simulate_memory p st in
  state_ok st' /\
  breakpoints st' = breakpoints st /\
  breakpoint_count st' = breakpoint_count st /\
  cpu_running st'
  = (if breakpoint_contains (bus_address p) st then 0 else cpu_running st).
Proof.
  intros Hm Hb Hc st'.
  destruct (simulate_memory_kept p st) as [(Hlen & Hbp & Hcnt & _) Hdir].
  destruct (simulate_memory_effects p st) as (_ & Hrun & _).
  subst st'. unfold state_ok, memory_ok, breakpoints_ok in *.
  rewrite Hlen, Hbp, Hcnt. destruct Hc. repeat split; assumption.
Qed.

Lemma responder_keeps_invariant_witness :
  let st' := simulate_memory (read_pins 1 0) hit_state in
  state_ok st' /\
  breakpoints st' = breakpoints hit_state /\
  breakpoint_count st' = breakpoint_count hit_state /\
  cpu_running st'
  = (if breakpoint_contains (bus_address (read_pins 1 0)) hit_state
     then 0 else cpu_running hit_state).
Proof.
  apply (responder_keeps_invariant (read_pins 1 0) hit_state).
  - vm_compute; reflexivity.
  - reflexivity.
  - vm_compute; split; discriminate.
Defined.

Lemma simulate_memory_memory p st :
  memory (simulate_memory p st)
  = if bit_set (CONTROL_PIN p) CPU_RW then memory st
    else memory (snd (write_memory (bus_address p) (DATA_PIN p) st)).
Proof.
  unfold simulate_memory, bus_transaction.
  set (st1 := if breakpoint_contains _ _ then _ else _).
  assert (Hm1 : memory st1 = memory st).
  { subst st1. destruct (breakpoint_contains _ _); [|reflexivity].
    by rewrite breakpoint_reached_emits. }
  destruct (bit_set _ _).
  - unfold read_memory. destruct (_ <? MEMORY_SIZE); fields; exact Hm1.
  - unfold write_memory. destruct (_ <? MEMORY_SIZE); fields; by rewrite Hm1.
Qed.

(** X15.  A cycle in which the CPU reads never changes the memory.  Its
    events are the breakpoint notification if the address is a breakpoint
    (which drives nothing) and nothing else before the transaction, then:
    data lines to output, the stored byte of a valid address or 0xFF for an
    address outside the array, the 1 us delay, data lines back to input. *)
Theorem responder_read_cycle (p : pins) (st : state) :
  bit_set (CONTROL_PIN p) CPU_RW = true ->
  let a := bus_address p in
  let st' := simulate_memory p st in
  let notice := if breakpoint_contains a st then tx_breakpoint_reached a else [] in
  memory st' = memory st /\
  trace st' = trace st ++ notice
              ++ [EvDataDir 255;
                  EvDataBus (if a <? MEMORY_SIZE then memory st !!! Z.to_nat a else 255);
                  EvDelayUs 1; EvDataDir 0] /\
  existsb drives_data notice = false.
Proof.
  intros Hrw a st' notice. subst st' notice. split; [|split].
  - rewrite simulate_memory_memory. by rewrite Hrw.
  - destruct (simulate_memory_effects p st) as (Htr & _). fold a in Htr.
    rewrite Htr. unfold transaction_events, read_memory. rewrite Hrw.
    destruct (a <? MEMORY_SIZE); reflexivity.
  - destruct (breakpoint_contains a st); [apply tx_breakpoint_reached_idle | reflexivity].
Qed.

Lemma responder_read_cycle_witness :
  let a := bus_address (read_pins 1 0) in
  let st' := simulate_memory (read_pins 1 0) hit_state in
  let notice := if breakpoint_contains a hit_state then tx_breakpoint_reached a else [] in
  memory st' = memory hit_state /\
  trace st' = trace hit_state ++ notice
              ++ [EvDataDir 255;
                  EvDataBus (if a <? MEMORY_SIZE then memory hit_state !!! Z.to_nat a else 255);
                  EvDelayUs 1; EvDataDir 0] /\
  existsb drives_data notice = false.
Proof. apply (responder_read_cycle (read_pins 1 0) hit_state). reflexivity. Defined.

(** X16.  A byte the CPU writes in one cycle is the byte it reads back from the
    same valid address in a later cycle. *)
Theorem bus_write_then_bus_read (pw pr : pins) (st : state) :
  memory_ok st ->
  bit_set (CONTROL_PIN pw) CPU_RW = false ->
  bit_set (CONTROL_PIN pr) CPU_RW = true ->
  bus_address pr = bus_address pw ->
  bus_address pw < MEMORY_SIZE ->
  let st1 := simulate_memory pw st in
  transaction_events pr (bus_address pr) st1
  = [EvDataDir 255; EvDataBus (DATA_PIN pw); EvDelayUs 1; EvDataDir 0] /\
  DATA_BUS (simulate_memory pr st1) = DATA_PIN pw.
Proof.
  intros Hok Hw Hr Haddr Hin st1.
  pose proof (word_of_bytes_range (ADDR_BUS_HIGH pw) (ADDR_BUS_LOW pw)) as Ha.
  fold (bus_address pw) in Ha.
  assert (Hread : read_memory (bus_address pr) st1 = (1, DATA_PIN pw)).
  { unfold read_memory. rewrite Haddr.
    destruct (Z.ltb_spec (bus_address pw) MEMORY_SIZE); [|lia]. f_equal.
    subst st1. rewrite simulate_memory_memory, Hw.
    rewrite write_memory_in_range by exact Hin. fields.
    apply list_lookup_total_insert_eq. unfold memory_ok in Hok. rewrite Hok. lia. }
  split.
  - unfold transaction_events. by rewrite Hr, Hread.
  - unfold simulate_memory. rewrite bus_transaction_read by exact Hr.
    set (st2 := if breakpoint_contains _ _ then _ else _).
    assert (Hm2 : memory st2 = memory st1).
    { subst st2. destruct (breakpoint_contains _ _); [|reflexivity].
      by rewrite breakpoint_reached_emits. }
    fields. unfold read_memory in *. rewrite Hm2.
    destruct (bus_address pr <? MEMORY_SIZE); by injection Hread.
Qed.

Lemma bus_write_then_bus_read_witness :
  let st1 := simulate_memory (write_pins 0 16 66) blank_state in
  transaction_events (read_pins 0 16) (bus_address (read_pins 0 16)) st1
  = [EvDataDir 255; EvDataBus (DATA_PIN (write_pins 0 16 66)); EvDelayUs 1; EvDataDir 0] /\
  DATA_BUS (simulate_memory (read_pins 0 16) st1) = DATA_PIN (write_pins 0 16 66).
Proof.
  apply (bus_write_then_bus_read (write_pins 0 16 66) (read_pins 0 16) blank_state).
  - vm_compute; reflexivity.
  - reflexivity.
  - reflexivity.
  - reflexivity.
  - reflexivity.
Defined.

(** X17.  A CPU write to an address outside the array is dropped: the memory is
    as before. *)
Theorem bus_write_out_of_range (p : pins) (st : state) :
  bit_set (CONTROL_PIN p) CPU_RW = false ->
  MEMORY_SIZE <= bus_address p ->
  memory (simulate_memory p st) = memory st.
Proof.
  intros Hw Hout. rewrite simulate_memory_memory, Hw.
  by rewrite write_memory_out_of_range.
Qed.

Lemma bus_write_out_of_range_witness :
  memory (simulate_memory (write_pins 32 0 66) blank_state) = memory blank_state.
Proof.
  apply (bus_write_out_of_range (write_pins 32 0 66) blank_state).
  - reflexivity.
  - vm_compute; discriminate.
Defined.

(** ** CommandDispatcher: the protocol *)

Lemma handle_W fuel env st hi lo d r :
  rx st = ch "W" :: hi :: lo :: d :: r ->
  handle_serial_command fuel env st
  = let w := word_of_bytes hi lo in
    if w <? MEMORY_SIZE
    then Ret (emits (tx_memory_written w)
                (set_memory (<[Z.to_nat w := d]> (memory st)) (set_rx r st)))
    else Ret (emits (tx_string msg_invalid_address) (set_rx r st)).
Proof.
  intros Hrx. unfold handle_serial_command.
  rewrite (receive_byte_cons _ _ _ Hrx). cbn [bind]. pick_case.
  rewrite (receive_word_cons hi lo (d :: r)) by reflexivity. cbn [bind].
  rewrite (receive_byte_cons d r) by reflexivity. cbn [bind].
  unfold write_memory. cbv zeta.
  destruct (word_of_bytes hi lo <? MEMORY_SIZE).
  - change (negb (1 =? 0)) with true. cbv iota.
    rewrite !send_string_emits, send_address_emits, !emits_emits. reflexivity.
  - change (negb (0 =? 0)) with false. cbv iota.
    rewrite send_string_emits. reflexivity.
Qed.

Lemma handle_M fuel env st hi lo r :
  rx st = ch "M" :: hi :: lo :: r ->
  handle_serial_command fuel env st
  = let w := word_of_bytes hi lo in
    if w <? MEMORY_SIZE
    then Ret (emits [EvTx (memory st !!! Z.to_nat w)] (set_rx r st))
    else Ret (emits (tx_string msg_invalid_address) (set_rx r st)).
Proof.
  intros Hrx. unfold handle_serial_command.
  rewrite (receive_byte_cons _ _ _ Hrx). cbn [bind]. pick_case.
  rewrite (receive_word_cons hi lo r) by reflexivity. cbn [bind].
  unfold read_memory. cbv zeta.
  destruct (word_of_bytes hi lo <? MEMORY_SIZE).
  - change (negb (1 =? 0)) with true. cbv iota. reflexivity.
  - change (negb (0 =? 0)) with false. cbv iota.
    rewrite send_string_emits. reflexivity.
Qed.

(** X18.  A Write command to a valid address followed by a Read command of the
    same address: the first is answered with the text naming the address,
    the second with the one raw byte that was written. *)
Theorem write_command_then_read_command fuel env (st : state) (a d : Z) (tail : list Z) :
  memory_ok st ->
  0 <= a < MEMORY_SIZE ->
  rx st = cmd_W a d ++ cmd_M a ++ tail ->
  exists st',
    run_commands 2 fuel env st = Ret st' /\
    trace st' = trace st ++ tx_memory_written a ++ [EvTx d] /\
    rx st' = tail /\
    read_memory a st' = (1, d).
Proof.
  intros Hok Ha Hrx.
  assert (Hw : word_of_bytes (a / 256) (a mod 256) = a)
    by (apply word_of_bytes_split; unfold is_word, MEMORY_SIZE in *; lia).
  assert (Hlt : (a <? MEMORY_SIZE) = true) by (apply Z.ltb_lt; lia).
  assert (Hlook : <[Z.to_nat a := d]> (memory st) !!! Z.to_nat a = d).
  { apply list_lookup_total_insert_eq. unfold memory_ok in Hok. rewrite Hok. lia. }
  cbn [run_commands]. unfold cmd_W, cmd_M in Hrx. cbn [app] in Hrx.
  rewrite (handle_W fuel env st _ _ d _ Hrx). cbv zeta. rewrite Hw, Hlt.
  erewrite handle_M by reflexivity. cbv zeta. rewrite Hw, Hlt.
  eexists. split; [reflexivity|]. fields. rewrite Hlook.
  split; [by rewrite <- app_assoc|]. split; [reflexivity|].
  unfold read_memory. rewrite Hlt. fields. by rewrite Hlook.
Qed.

Lemma write_command_then_read_command_witness :
  exists st',
    run_commands 2 0 idle_env (set_rx (cmd_W 16 66 ++ cmd_M 16 ++ [ch "H"]) blank_state)
    = Ret st' /\
    trace st' = trace (set_rx (cmd_W 16 66 ++ cmd_M 16 ++ [ch "H"]) blank_state)
                ++ tx_memory_written 16 ++ [EvTx 66] /\
    rx st' = [ch "H"] /\
    read_memory 16 st' = (1, 66).
Proof.
  apply (write_command_then_read_command 0 idle_env
           (set_rx (cmd_W 16 66 ++ cmd_M 16 ++ [ch "H"]) blank_state) 16 66 [ch "H"]).
  - vm_compute; reflexivity.
  - unfold MEMORY_SIZE; lia.
  - reflexivity.
Defined.

(** X19.  Write and Read commands for an address outside the array are answered
    with the invalid-address text; the Write still consumes its data byte,
    and nothing but the input and the output changes. *)
Theorem commands_with_invalid_address fuel env (stw stm : state) (hi lo d : Z)
        (tail : list Z) :
  MEMORY_SIZE <= word_of_bytes hi lo ->
  rx stw = ch "W" :: hi :: lo :: d :: tail ->
  rx stm = ch "M" :: hi :: lo :: tail ->
  handle_serial_command fuel env stw
  = Ret (emits (tx_string msg_invalid_address) (set_rx tail stw)) /\
  handle_serial_command fuel env stm
  = Ret (emits (tx_string msg_invalid_address) (set_rx tail stm)).
Proof.
  intros Hout Hw Hm.
  assert (Hlt : (word_of_bytes hi lo <? MEMORY_SIZE) = false) by (apply Z.ltb_ge; lia).
  split.
  - rewrite (handle_W fuel env stw hi lo d tail Hw). cbv zeta. by rewrite Hlt.
  - rewrite (handle_M fuel env stm hi lo tail Hm). cbv zeta. by rewrite Hlt.
Qed.

Lemma commands_with_invalid_address_witness :
  handle_serial_command 0 idle_env (set_rx [ch "W"; 32; 0; 7; ch "H"] blank_state)
  = Ret (emits (tx_string msg_invalid_address)
           (set_rx [ch "H"] (set_rx [ch "W"; 32; 0; 7; ch "H"] blank_state))) /\
  handle_serial_command 0 idle_env (set_rx [ch "M"; 32; 0; ch "H"] blank_state)
  = Ret (emits (tx_string msg_invalid_address)
           (set_rx [ch "H"] (set_rx [ch "M"; 32; 0; ch "H"] blank_state))).
Proof.
  apply (commands_with_invalid_address 0 idle_env
           (set_rx [ch "W"; 32; 0; 7; ch "H"] blank_state)
           (set_rx [ch "M"; 32; 0; ch "H"] blank_state) 32 0 7 [ch "H"]).
  - vm_compute; discriminate.
  - reflexivity.
  - reflexivity.
Defined.

(** X20.  A Load whose addresses are all valid, followed by a Read command of any
    address it covered: the Load is answered with the success text and the
    Read with the byte loaded at that offset. *)
Theorem load_then_read_command fuel env (st : state)
        (ah al sh sl : Z) (data tail : list Z) (k : Z) :
  let A := word_of_bytes ah al in
  let size := word_of_bytes sh sl in
  memory_ok st ->
  A + size <= MEMORY_SIZE ->
  Z.of_nat (length data) = size ->
  0 <= k < size ->
  rx st = ch "L" :: ah :: al :: sh :: sl :: data ++ cmd_M (A + k) ++ tail ->
  exists st' b,
    run_commands 2 fuel env st = Ret st' /\
    data !! Z.to_nat k = Some b /\
    trace st' = trace st ++ tx_string msg_load_ok ++ [EvTx b] /\
    rx st' = tail.
Proof.
  intros A size Hok Hfit Hlen Hk Hrx.
  pose proof (word_of_bytes_range ah al) as HA. fold A in HA.
  pose proof (word_of_bytes_range sh sl) as Hs. fold size in Hs.
  destruct (lookup_lt_is_Some_2 data (Z.to_nat k)) as [b Hb]; [lia|].
  assert (Hload := handle_L fuel env st ah al sh sl data (cmd_M (A + k) ++ tail) size).
  cbv zeta in Hload. fold A size in Hload.
  rewrite Z.ltb_irrefl in Hload.
  cbn [run_commands]. rewrite Hload; clear Hload.
  - unfold MEMORY_SIZE in Hfit.
    assert (Hw : word_of_bytes ((A + k) / 256) ((A + k) mod 256) = A + k)
      by (apply word_of_bytes_split; unfold is_word; lia).
    erewrite handle_M by reflexivity. cbv zeta. rewrite Hw.
    destruct (Z.ltb_spec (A + k) MEMORY_SIZE); [|unfold MEMORY_SIZE in *; lia].
    exists (emits [EvTx (memory
              (emits (tx_string msg_load_ok)
                 (set_rx (cmd_M (A + k) ++ tail)
                    (set_memory (store_bytes (Z.to_nat A) (take (Z.to_nat size) data)
                       (memory st)) st))) !!! Z.to_nat (A + k))]
              (set_rx tail
                 (emits (tx_string msg_load_ok)
                    (set_rx (cmd_M (A + k) ++ tail)
                       (set_memory (store_bytes (Z.to_nat A) (take (Z.to_nat size) data)
                          (memory st)) st))))), b.
    split; [reflexivity|]. split; [exact Hb|]. fields.
    assert (Hlook : store_bytes (Z.to_nat A) (take (Z.to_nat size) data) (memory st)
                    !! Z.to_nat (A + k) = Some b).
    { replace (Z.to_nat (A + k)) with (Z.to_nat A + Z.to_nat k)%nat by lia.
      rewrite store_bytes_lookup_in.
      - rewrite lookup_take_lt by lia. exact Hb.
      - rewrite length_take. lia.
      - unfold memory_ok in Hok. rewrite Hok, length_take. unfold MEMORY_SIZE. lia. }
    rewrite (list_lookup_total_correct _ _ _ Hlook).
    split; [by rewrite <- app_assoc | reflexivity].
  - exact Hrx.
  - lia.
  - intros j Hj. rewrite wrap16_small; unfold MEMORY_SIZE in *; lia.
  - lia.
  - lia.
Qed.

Lemma load_then_read_command_witness :
  exists st' b,
    run_commands 2 0 idle_env
      (set_rx (ch "L" :: 0 :: 16 :: 0 :: 3 :: [17; 34; 51] ++ cmd_M (16 + 1) ++ [ch "H"])
              blank_state) = Ret st' /\
    [17; 34; 51] !! Z.to_nat 1 = Some b /\
    trace st' = trace (set_rx (ch "L" :: 0 :: 16 :: 0 :: 3 :: [17; 34; 51]
                                  ++ cmd_M (16 + 1) ++ [ch "H"]) blank_state)
                ++ tx_string msg_load_ok ++ [EvTx b] /\
    rx st' = [ch "H"].
Proof.
  apply (load_then_read_command 0 idle_env
           (set_rx (ch "L" :: 0 :: 16 :: 0 :: 3 :: [17; 34; 51] ++ cmd_M (16 + 1) ++ [ch "H"])
                   blank_state)
           0 16 0 3 [17; 34; 51] [ch "H"] 1).
  - vm_compute; reflexivity.
  - vm_compute; discriminate.
  - reflexivity.
  - vm_compute; split; [discriminate | reflexivity].
  - reflexivity.
Defined.

(** X21.  A command byte that is none of R, H, C, S, W, M, L, B, G is answered
    with the unknown-command text; exactly that one byte is consumed and
    nothing else changes. *)
Theorem unknown_command_reply fuel env (st : state) (c : Z) (tail : list Z) :
  known_command c = false ->
  rx st = c :: tail ->
  handle_serial_command fuel env st
  = Ret (emits (tx_string (line "Error: Unknown command.")) (set_rx tail st)).
Proof.
  intros Hc Hrx. unfold known_command in Hc. cbn [existsb] in Hc.
  rewrite !orb_false_iff in Hc.
  destruct Hc as (HR & HH & HC & HS & HW & HM & HL & HB & HG & _).
  unfold handle_serial_command. rewrite (receive_byte_cons _ _ _ Hrx). cbn [bind].
  rewrite HR, HH, HC, HS, HW, HM, HL, HB, HG.
  by rewrite send_string_emits.
Qed.

Lemma unknown_command_reply_witness :
  handle_serial_command 0 idle_env (set_rx [ch "x"; ch "H"] blank_state)
  = Ret (emits (tx_string (line "Error: Unknown command."))
           (set_rx [ch "H"] (set_rx [ch "x"; ch "H"] blank_state))).
Proof.
  apply (unknown_command_reply 0 idle_env (set_rx [ch "x"; ch "H"] blank_state) (ch "x") [ch "H"]).
  - reflexivity.
  - reflexivity.
Defined.

(** X22.  A Step command on a CPU whose SYNC line shows a high sample followed by
    a low one: the dispatcher runs between 2 and [j + 1] bus cycles with the
    run flag cleared, then sends its one-line reply; the CPU stays halted
    whatever the run flag was before. *)
Theorem step_command_completes (env : nat -> cycle) (st : state) (tail : list Z) (i j : nat) :
  rx st = ch "S" :: tail ->
  (i < j)%nat ->
  sync_at env i = true ->
  sync_at env j = false ->
  exists n : nat,
    (2 <= n <= j + 1)%nat /\
    let stepped := run_cycles env 0 n (halt_cpu (set_rx tail st)) in
    (forall fuel, (n <= fuel)%nat ->
       handle_serial_command fuel env st
       = Ret (emits (tx_string (line "CPU stepped one instruction.")) stepped)) /\
    cpu_running stepped = 0 /\
    rx stepped = tail.
Proof.
  intros Hrx Hij Hi Hj.
  destruct (sync_pulse_shape env i j Hij Hi Hj) as (a & b & Hb & Hab & Hlow & Hhigh & Hfall).
  exists (S (a + b)). split; [lia|]. cbv zeta. split; [|split].
  - intros fuel Hfuel. unfold handle_serial_command.
    rewrite (receive_byte_cons _ _ _ Hrx). cbn [bind]. pick_case.
    unfold step_cpu.
    rewrite (step_loop_pulse env a b fuel _ Hb Hlow Hhigh Hfall) by lia.
    by rewrite send_string_emits.
  - apply run_cycles_halted. reflexivity.
  - assert (H : forall n k s, rx (run_cycles env k n s) = rx s).
    { induction n as [|n IH]; intros k s; cbn [run_cycles]; [reflexivity|].
      rewrite IH. unfold bus_cycle, simulate_memory, bus_transaction.
      destruct (breakpoint_contains _ _);
        rewrite ?breakpoint_reached_emits;
        destruct (bit_set _ _); unfold read_memory, write_memory;
        destruct (_ <? MEMORY_SIZE); reflexivity. }
    rewrite H. reflexivity.
Qed.

Lemma step_command_completes_witness :
  exists n : nat,
    (2 <= n <= 3 + 1)%nat /\
    let stepped := run_cycles one_fetch_env 0 n
                     (halt_cpu (set_rx [ch "C"] (set_rx [ch "S"; ch "C"] blank_state))) in
    (forall fuel, (n <= fuel)%nat ->
       handle_serial_command fuel one_fetch_env (set_rx [ch "S"; ch "C"] blank_state)
       = Ret (emits (tx_string (line "CPU stepped one instruction.")) stepped)) /\
    cpu_running stepped = 0 /\
    rx stepped = [ch "C"].
Proof.
  apply (step_command_completes one_fetch_env (set_rx [ch "S"; ch "C"] blank_state) [ch "C"] 1 3).
  - reflexivity.
  - lia.
  - reflexivity.
  - reflexivity.
Defined.

(** X23.  A Step command on a CPU whose SYNC line never falls after a rise:
    the dispatcher call does not return, whatever number of passes of the
    stepping loop it is allowed. *)
Theorem step_command_blocks (env : nat -> cycle) (st : state) (tail : list Z) :
  rx st = ch "S" :: tail ->
  (forall i j : nat, (i < j)%nat -> sync_at env i = true -> sync_at env j = false -> False) ->
  forall fuel, handle_serial_command fuel env st = StillStepping.
Proof.
  intros Hrx Hnever fuel. unfold handle_serial_command.
  rewrite (receive_byte_cons _ _ _ Hrx). cbn [bind]. pick_case.
  unfold step_cpu.
  destruct (step_loop fuel env 0 0 (halt_cpu (set_rx tail st))) as [s| |] eqn:Hrun.
  - exfalso.
    apply step_loop_returns_only_after_pulse in Hrun; [|intros H; contradiction].
    destruct Hrun as (i & j & Hij & Hi & Hj). apply (Hnever i j); [lia | exact Hi | exact Hj].
  - exfalso. by apply step_loop_never_starved in Hrun.
  - reflexivity.
Qed.

Lemma step_command_blocks_witness :
  handle_serial_command 25 idle_env (set_rx [ch "S"; ch "H"] blank_state) = StillStepping.
Proof.
  apply (step_command_blocks idle_env (set_rx [ch "S"; ch "H"] blank_state) [ch "H"]).
  - reflexivity.
  - intros i j _ Hi _. vm_compute in Hi. discriminate.
Defined.

(** X24.  The table does not merge duplicates: [MAX_BREAKPOINTS] SetBreakpoint
    commands for one and the same address fill it, so that a further
    SetBreakpoint is refused although a single address is watched. *)
Theorem duplicate_breakpoints_fill_table fuel env (st : state) (a extra : Z * Z)
        (tail : list Z) :
  breakpoints_ok st ->
  breakpoint_count st = 0 ->
  rx st = flat_map cmd_B (replicate (Z.to_nat MAX_BREAKPOINTS) a) ++ cmd_B extra ++ tail ->
  exists st',
    run_commands (Z.to_nat MAX_BREAKPOINTS) fuel env st = Ret st' /\
    breakpoint_count st' = MAX_BREAKPOINTS /\
    (forall x, breakpoint_contains x st' = true <-> x = addr_B a) /\
    handle_serial_command fuel env st'
    = Ret (emits (tx_string msg_breakpoints_full) (set_rx (fst extra :: snd extra :: tail) st')).
Proof.
  intros Hok Hc Hrx.
  set (addrs := replicate (Z.to_nat MAX_BREAKPOINTS) a) in *.
  assert (Hlen : length addrs = Z.to_nat MAX_BREAKPOINTS) by apply length_replicate.
  destruct (run_set_breakpoints fuel env addrs st (cmd_B extra ++ tail))
    as (st' & Hrun & Hrx' & Hc' & _ & _ & _ & _ & Hin);
    [exact Hok | lia | rewrite Hc, Hlen; unfold MAX_BREAKPOINTS; lia | exact Hrx |].
  exists st'. rewrite <- Hlen. split; [exact Hrun|].
  split; [rewrite Hc', Hc, Hlen; unfold MAX_BREAKPOINTS; lia|]. split.
  - intros x. rewrite Hin, (breakpoint_contains_empty x st Hc). subst addrs. split.
    + intros [H|H]; [discriminate|].
      apply in_map_iff in H. destruct H as (y & <- & Hy).
      apply list_elem_of_In, elem_of_replicate in Hy. by destruct Hy as [-> _].
    + intros ->. right. apply in_map. apply list_elem_of_In, elem_of_replicate.
      split; [reflexivity | unfold MAX_BREAKPOINTS; lia].
  - apply handle_B_full; [exact Hrx'|].
    rewrite Hc', Hc, Hlen. unfold MAX_BREAKPOINTS. lia.
Qed.

Lemma duplicate_breakpoints_fill_table_witness :
  exists st',
    run_commands (Z.to_nat MAX_BREAKPOINTS) 0 idle_env
      (set_rx (flat_map cmd_B (replicate (Z.to_nat MAX_BREAKPOINTS) (1, 0))
               ++ cmd_B (2, 0) ++ []) blank_state) = Ret st' /\
    breakpoint_count st' = MAX_BREAKPOINTS /\
    (forall x, breakpoint_contains x st' = true <-> x = addr_B (1, 0)) /\
    handle_serial_command 0 idle_env st'
    = Ret (emits (tx_string msg_breakpoints_full) (set_rx (fst (2, 0) :: snd (2, 0) :: []) st')).
Proof.
  apply (duplicate_breakpoints_fill_table 0 idle_env
           (set_rx (flat_map cmd_B (replicate (Z.to_nat MAX_BREAKPOINTS) (1, 0))
                    ++ cmd_B (2, 0) ++ []) blank_state) (1, 0) (2, 0) []).
  - vm_compute; reflexivity.
  - reflexivity.
  - reflexivity.
Defined.

(** ** Main loop *)

Lemma simulate_memory_rx p st : rx (simulate_memory p st) = rx st.
Proof.
  unfold simulate_memory, bus_transaction.
  destruct (breakpoint_contains _ _); rewrite ?breakpoint_reached_emits;
    destruct (bit_set _ _); unfold read_memory, write_memory;
    destruct (_ <? MEMORY_SIZE); reflexivity.
Qed.

Lemma main_pass_no_input fuel env p st :
  rx st = [] ->
  main_pass fuel env p st
  = Ret (if negb (cpu_running st =? 0) then simulate_memory p st else st).
Proof. intros Hrx. unfold main_pass. by rewrite Hrx. Qed.

Lemma main_loop_idle_when_halted_aux fuel (inputs : list ((nat -> cycle) * pins)) st :
  rx st = [] -> cpu_running st = 0 -> main_loop fuel inputs st = Ret st.
Proof.
  intros Hrx Hrun. induction inputs as [|[env p] inputs IH]; cbn [main_loop]; [reflexivity|].
  rewrite main_pass_no_input by exact Hrx. rewrite Hrun.
  change (negb (0 =? 0)) with false. cbv iota. exact IH.
Qed.

(** X25.  While the CPU is halted and no command byte is waiting, the main loop
    serves no bus cycle and changes nothing, whatever the pins show and for
    any number of passes. *)
Theorem main_loop_idle_when_halted fuel (inputs : list ((nat -> cycle) * pins)) (st : state) :
  rx st = [] ->
  cpu_running st = 0 ->
  main_loop fuel inputs st = Ret st.
Proof. apply main_loop_idle_when_halted_aux. Qed.

Lemma main_loop_idle_when_halted_witness :
  main_loop 0 [(idle_env, read_pins 1 0); (idle_env, write_pins 0 16 66)]
            (halt_cpu hit_state)
  = Ret (halt_cpu hit_state).
Proof.
  apply (main_loop_idle_when_halted 0
           [(idle_env, read_pins 1 0); (idle_env, write_pins 0 16 66)] (halt_cpu hit_state)).
  - reflexivity.
  - reflexivity.
Defined.

(** X26.  While the CPU runs, no command byte is waiting and the addresses on the
    bus are not breakpoints, every pass of the main loop serves exactly one
    bus cycle. *)
Theorem main_loop_free_running fuel (inputs : list ((nat -> cycle) * pins)) (st : state) :
  rx st = [] ->
  cpu_running st <> 0 ->
  (forall e p, In (e, p) inputs -> breakpoint_contains (bus_address p) st = false) ->
  main_loop fuel inputs st
  = Ret (fold_left (fun s ep => simulate_memory (snd ep) s) inputs st).
Proof.
  revert st. induction inputs as [|[env p] inputs IH]; intros st Hrx Hrun Hno;
    cbn [main_loop fold_left snd]; [reflexivity|].
  rewrite main_pass_no_input by exact Hrx.
  destruct (Z.eqb_spec (cpu_running st) 0); [contradiction|]. cbn [negb].
  destruct (simulate_memory_effects p st) as (_ & Hrun' & _).
  rewrite (Hno env p (or_introl eq_refl)) in Hrun'.
  destruct (simulate_memory_kept p st) as [Hk _].
  apply IH.
  - by rewrite simulate_memory_rx.
  - by rewrite Hrun'.
  - intros e q Hin. rewrite (tables_kept_contains _ _ _ Hk). apply (Hno e q). by right.
Qed.

Lemma main_loop_free_running_witness :
  main_loop 0 [(idle_env, write_pins 0 16 66); (idle_env, read_pins 0 16)] hit_state
  = Ret (fold_left (fun s ep => simulate_memory (snd ep) s)
           [(idle_env, write_pins 0 16 66); (idle_env, read_pins 0 16)] hit_state).
Proof.
  apply (main_loop_free_running 0
           [(idle_env, write_pins 0 16 66); (idle_env, read_pins 0 16)] hit_state).
  - reflexivity.
  - vm_compute; discriminate.
  - intros e p [H|[H|[]]]; injection H as _ <-; reflexivity.
Defined.

(** X27.  A breakpoint hit stops the free-running loop: the pass that samples the
    breakpoint address still serves its bus cycle and reports the hit, and
    after it no pass serves a bus cycle until a command arrives. *)
Theorem breakpoint_stops_main_loop fuel env (p : pins)
        (inputs : list ((nat -> cycle) * pins)) (st : state) :
  rx st = [] ->
  cpu_running st <> 0 ->
  breakpoint_contains (bus_address p) st = true ->
  main_loop fuel ((env, p) :: inputs) st = Ret (simulate_memory p st) /\
  cpu_running (simulate_memory p st) = 0 /\
  trace (simulate_memory p st)
  = trace st ++ tx_breakpoint_reached (bus_address p)
    ++ transaction_events p (bus_address p) st.
Proof.
  intros Hrx Hrun Hhit.
  destruct (simulate_memory_effects p st) as (Htr & Hrun' & _).
  rewrite Hhit in Htr, Hrun'.
  split; [|split; [exact Hrun' | exact Htr]].
  cbn [main_loop]. rewrite main_pass_no_input by exact Hrx.
  destruct (Z.eqb_spec (cpu_running st) 0); [contradiction|]. cbn [negb].
  apply main_loop_idle_when_halted_aux.
  - by rewrite simulate_memory_rx.
  - exact Hrun'.
Qed.

Lemma breakpoint_stops_main_loop_witness :
  main_loop 0 ((idle_env, read_pins 1 0) :: [(idle_env, write_pins 0 16 66)]) hit_state
  = Ret (simulate_memory (read_pins 1 0) hit_state) /\
  cpu_running (simulate_memory (read_pins 1 0) hit_state) = 0 /\
  trace (simulate_memory (read_pins 1 0) hit_state)
  = trace hit_state ++ tx_breakpoint_reached (bus_address (read_pins 1 0))
    ++ transaction_events (read_pins 1 0) (bus_address (read_pins 1 0)) hit_state.
Proof.
  apply (breakpoint_stops_main_loop 0 idle_env (read_pins 1 0)
           [(idle_env, write_pins 0 16 66)] hit_state).
  - reflexivity.
  - vm_compute; discriminate.
  - reflexivity.
Defined.

(** X28.  A Halt command stops the bus service in the very pass that reads it,
    and a Continue command resumes it in the very pass that reads it. *)
Theorem halt_and_continue_in_main_loop fuel env (p : pins)
        (inputs : list ((nat -> cycle) * pins)) (sth stc : state) :
  rx sth = [ch "H"] ->
  rx stc = [ch "C"] ->
  main_loop fuel ((env, p) :: inputs) sth
  = Ret (emits (tx_string (line "CPU halted.")) (halt_cpu (set_rx [] sth))) /\
  main_pass fuel env p stc
  = Ret (simulate_memory p
           (emits (tx_string (line "CPU continued.")) (release_cpu (set_rx [] stc)))).
Proof.
  intros Hh Hc. split.
  - cbn [main_loop]. unfold main_pass. rewrite Hh.
    unfold handle_serial_command. rewrite (receive_byte_cons _ _ _ Hh). cbn [bind].
    pick_case. rewrite send_string_emits. fields.
    change (negb (0 =? 0)) with false. cbv iota.
    by apply main_loop_idle_when_halted_aux.
  - unfold main_pass. rewrite Hc.
    unfold handle_serial_command. rewrite (receive_byte_cons _ _ _ Hc). cbn [bind].
    pick_case. rewrite send_string_emits. reflexivity.
Qed.

Lemma halt_and_continue_in_main_loop_witness :
  main_loop 0 ((idle_env, read_pins 0 16) :: [(idle_env, read_pins 0 17)])
            (set_rx [ch "H"] blank_state)
  = Ret (emits (tx_string (line "CPU halted."))
           (halt_cpu (set_rx [] (set_rx [ch "H"] blank_state)))) /\
  main_pass 0 idle_env (read_pins 0 16) (set_rx [ch "C"] (halt_cpu blank_state))
  = Ret (simulate_memory (read_pins 0 16)
           (emits (tx_string (line "CPU continued."))
              (release_cpu (set_rx [] (set_rx [ch "C"] (halt_cpu blank_state)))))).
Proof.
  apply (halt_and_continue_in_main_loop 0 idle_env (read_pins 0 16)
           [(idle_env, read_pins 0 17)]
           (set_rx [ch "H"] blank_state) (set_rx [ch "C"] (halt_cpu blank_state))).
  - reflexivity.
  - reflexivity.
Defined.

Lemma main_pass_keeps fuel env p st st' :
  state_ok st ->
  main_pass fuel env p st = Ret st' ->
  state_ok st' /\
  (forall a, breakpoint_contains a st = true -> breakpoint_contains a st' = true).
Proof.
  intros Hok H. unfold main_pass in H.
  assert (Hmid : exists st1,
             (match rx st with [] => Ret st | _ :: _ => handle_serial_command fuel env st end)
             = Ret st1 /\
             state_ok st1 /\
             (forall a, breakpoint_contains a st = true -> breakpoint_contains a st1 = true)).
  { destruct (rx st) as [|c r] eqn:Hrx.
    - exists st. auto.
    - destruct (handle_serial_command fuel env st) as [st1| |] eqn:Hh; try discriminate.
      exists st1. split; [reflexivity|].
      apply (handle_serial_command_keeps fuel env st st1 Hok Hh). }
  destruct Hmid as (st1 & Hst1 & Hok1 & Hc1). rewrite Hst1 in H. injection H as <-.
  destruct (negb (cpu_running st1 =? 0)); [|auto].
  destruct (simulate_memory_kept p st1) as [Hk _].
  split; [by apply (tables_kept_state_ok st1)|].
  intros a Ha. rewrite (tables_kept_contains _ _ a Hk). auto.
Qed.

(** X29.  Across any run of the main loop that returns, with command bytes
    arriving before any pass -- commands, steps and bus cycles mixed in any
    way -- the arrays keep their sizes, the breakpoint count stays within
    the table, the data lines end released, and no breakpoint is lost. *)
Theorem main_loop_keeps_invariant fuel
        (inputs : list (list Z * ((nat -> cycle) * pins))) (st st' : state) :
  state_ok st ->
  main_loop_arriving fuel inputs st = Ret st' ->
  state_ok st' /\
  (forall a, breakpoint_contains a st = true -> breakpoint_contains a st' = true).
Proof.
  revert st. induction inputs as [|[arrived [env p]] inputs IH]; intros st Hok H;
    cbn [main_loop_arriving] in H.
  - injection H as <-. auto.
  - set (st0 := set_rx (rx st ++ arrived) st) in *.
    assert (Hk0 : tables_kept st st0) by (subst st0; kept_now).
    destruct (main_pass fuel env p st0) as [st1| |] eqn:Hp; try discriminate.
    destruct (main_pass_keeps fuel env p st0 st1 (tables_kept_state_ok _ _ Hk0 Hok) Hp)
      as [Hok1 Hc1].
    destruct (IH st1 Hok1 H) as [Hok' Hc']. split; [exact Hok'|].
    intros a Ha. apply Hc', Hc1. by rewrite (tables_kept_contains _ _ a Hk0).
Qed.

Lemma main_loop_keeps_invariant_witness :
  state_ok (simulate_memory (read_pins 1 0)
              (emits (tx_breakpoint_set 512)
                 (breakpoint_store 512
                    (set_rx [] (simulate_memory (write_pins 0 16 66) hit_state))))) /\
  (forall a, breakpoint_contains a hit_state = true ->
             breakpoint_contains a
               (simulate_memory (read_pins 1 0)
                  (emits (tx_breakpoint_set 512)
                     (breakpoint_store 512
                        (set_rx [] (simulate_memory (write_pins 0 16 66) hit_state)))))
             = true).
Proof.
  apply (main_loop_keeps_invariant 0
           [([], (idle_env, write_pins 0 16 66)); ([ch "B"; 2; 0], (idle_env, read_pins 1 0))]
           hit_state).
  - unfold state_ok. split; [vm_compute; reflexivity|]. split; [reflexivity|].
    split; [vm_compute; split; discriminate | reflexivity].
  - vm_compute; reflexivity.
Defined.

(** ** StepController: the control lines *)

Lemma simulate_memory_CONTROL_PORT p st :
  CONTROL_PORT (simulate_memory p st) = CONTROL_PORT st.
Proof.
  unfold simulate_memory, bus_transaction.
  destruct (breakpoint_contains _ _); rewrite ?breakpoint_reached_emits;
    destruct (bit_set _ _); unfold read_memory, write_memory;
    destruct (_ <? MEMORY_SIZE); reflexivity.
Qed.

Lemma bus_cycle_control_lines c st :
  Z.testbit (CONTROL_PORT (bus_cycle c st)) CPU_CLOCK = false /\
  (forall n, 0 <= n < 8 -> n <> CPU_CLOCK ->
             Z.testbit (CONTROL_PORT (bus_cycle c st)) n = Z.testbit (CONTROL_PORT st) n).
Proof.
  unfold bus_cycle. rewrite simulate_memory_CONTROL_PORT. fields. split.
  - rewrite testbit_line_low by (unfold CPU_CLOCK; lia). reflexivity.
  - intros n Hn Hne.
    rewrite testbit_line_low, testbit_line_high by (unfold CPU_CLOCK; lia).
    destruct (Z.eqb_spec n CPU_CLOCK); [contradiction | reflexivity].
Qed.

Lemma step_loop_control_lines env (fuel : nat) :
  forall k sh st st',
    step_loop fuel env k sh st = Ret st' ->
    Z.testbit (CONTROL_PORT st') CPU_CLOCK = false /\
    (forall n, 0 <= n < 8 -> n <> CPU_CLOCK ->
               Z.testbit (CONTROL_PORT st') n = Z.testbit (CONTROL_PORT st) n).
Proof.
  induction fuel as [|fuel IH]; intros k sh st st' H; cbn [step_loop] in H; [discriminate|].
  destruct (bus_cycle_control_lines (env k) st) as [Hclk Hother].
  assert (Hrec : forall sh', step_loop fuel env (S k) sh' (bus_cycle (env k) st) = Ret st' ->
                 Z.testbit (CONTROL_PORT st') CPU_CLOCK = false /\
                 (forall n, 0 <= n < 8 -> n <> CPU_CLOCK ->
                            Z.testbit (CONTROL_PORT st') n = Z.testbit (CONTROL_PORT st) n)).
  { intros sh' H'. destruct (IH _ _ _ _ H') as [Hc Ho]. split; [exact Hc|].
    intros n Hn Hne. rewrite Ho, Hother by assumption. reflexivity. }
  destruct (sync_of (env k)); [by eapply Hrec|].
  destruct (negb (sh =? 0)); [|by eapply Hrec].
  injection H as <-. auto.
Qed.

(** X30.  When [step_cpu] returns, the clock line is low and the reset, IRQ and
    NMI lines (every control line but the clock) are as they were before
    the step. *)
Theorem step_cpu_control_lines (fuel : nat) (env : nat -> cycle) (st st' : state) :
  step_cpu fuel env st = Ret st' ->
  Z.testbit (CONTROL_PORT st') CPU_CLOCK = false /\
  (forall n, 0 <= n < 8 -> n <> CPU_CLOCK ->
             Z.testbit (CONTROL_PORT st') n = Z.testbit (CONTROL_PORT st) n).
Proof. intros H. unfold step_cpu in H. by apply step_loop_control_lines in H. Qed.

Lemma step_cpu_control_lines_witness :
  Z.testbit (CONTROL_PORT (run_cycles one_fetch_env 0 4 (halt_cpu blank_state))) CPU_CLOCK = false /\
  (forall n, 0 <= n < 8 -> n <> CPU_CLOCK ->
             Z.testbit (CONTROL_PORT (run_cycles one_fetch_env 0 4 (halt_cpu blank_state))) n
             = Z.testbit (CONTROL_PORT blank_state) n).
Proof.
  apply (step_cpu_control_lines 10 one_fetch_env blank_state).
  vm_compute; reflexivity.
Defined.

(** ** Stray bytes after a refused SetBreakpoint *)










